(** * The submit-and-poll workflow of [src/components/ImageProcessor.tsx]

    [handleProcess] is an [async] function: it calls the browser (state
    setters, toasts, the logger, [fetch], [response.json()], a timer,
    [dispatchEvent]) and its poll loop has no bound.  It is embedded as an
    interaction tree whose events are these calls; what the awaited calls are
    answered comes from outside.

    The tree is given two readings.  A single invocation is run against a
    scripted environment on a logical clock ([exec]), which gives the
    journal of its calls.  The mounted component is a transition system
    ([react]): clicks start invocations, answers resume the suspended ones,
    and the button is disabled as in the JSX.

    Part I holds the definitions, Part II the facts about runs and about
    all runs at once (monitors), Part III the claims C1 to C10, Part IV
    further properties of the requests, the outcomes, the clock, the page and
    the screen. *)

From Stdlib Require Import String List Bool Arith NArith Lia.
From ITree Require Import ITree Eq.Shallow.
From Paco Require Import paco.
Import ListNotations.
Local Open Scope string_scope.
Local Open Scope N_scope.

(** * Part I.  The embedding *)

(** ** Data *)

(** [useState<'idle' | 'uploading' | 'processing' | 'complete' | 'error'>] *)
Inductive Status : Type :=
| Idle | Uploading | Processing | Complete | Error.

(** [a === b] on statuses. *)
Definition Status_eqb (a b : Status) : bool :=
  match a, b with
  | Idle, Idle | Uploading, Uploading | Processing, Processing
  | Complete, Complete | Error, Error => true
  | _, _ => false
  end.

(** A thrown value: an [Error] object with its [message], or anything else
    (the [catch] block tests [error instanceof Error]). *)
Inductive Thrown : Type :=
| JsError (message : string)
| NonError (value : string).

(** A settled promise. *)
Inductive Settled (A : Type) : Type :=
| Fulfilled (a : A)
| Rejected (t : Thrown).
Arguments Fulfilled {A} a.
Arguments Rejected {A} t.

(** The [output] field of a prediction: absent, one URL, or an array. *)
Inductive Output : Type :=
| NoOutput
| OneUrl (u : string)
| Urls (us : list string).

(** The properties the code reads of a parsed response body.  The two
    endpoints answer with JSON objects; the code reads four of their fields,
    strings but for [output], and a field that is missing reads as
    [undefined] ([None]). *)
Record Json : Type := mkJson {
  j_id : option string;
  j_status : option string;
  j_output : Output;
  j_error : option string
}.

(** What [response.json()] fulfils with: [null], of which no property can
    be read, or a value with properties.  A JSON number, string, boolean or
    array has none of the four properties and reads like an object without
    them. *)
Inductive Body : Type :=
| JsonNull
| JsonObject (fields : Json).

(** A [Response]: its [ok] flag and what [response.json()] settles to. *)
Record Response : Type := mkResponse {
  ok : bool;
  json : Settled Body
}.

(** The body of the creation request:
    [{model, input: {image, scale, face_enhance}}]. *)
Record RequestBody : Type := mkBody {
  model : string;
  input_image : string;
  input_scale : N;
  input_face_enhance : bool
}.

(** What [handleProcess] closes over: the user of [useAuth], the props and
    the two pieces of local state sent with the request. *)
Record Props : Type := mkProps {
  user : option string;
  selectedFile : option string;
  previewUrl : option string;
  scale : N;
  enhanceFace : bool
}.

(** [const MODEL] (line 12) *)
Definition MODEL : string :=
  "nightmareai/real-esrgan:f121d640bd286e1fdc67f9799164c1d5be36ff74576ee11c803ae5b665dd46aa".

(** ** JavaScript idioms *)

(** Truthiness of a string-valued field: [undefined] and [""] are falsy. *)
Definition truthy (v : option string) : bool :=
  match v with
  | Some s => negb (String.eqb s "")
  | None => false
  end.

(** [v || fallback] *)
Definition or_else (v : option string) (fallback : string) : string :=
  match v with
  | Some s => if String.eqb s "" then fallback else s
  | None => fallback
  end.

(** An object reference ([user], [selectedFile]) is truthy when it is not
    [null]. *)
Definition present {A} (v : option A) : bool :=
  match v with
  | Some _ => true
  | None => false
  end.

(** A template literal's rendering of a possibly missing string. *)
Definition show (v : option string) : string :=
  match v with
  | Some s => s
  | None => "undefined"
  end.

(** [status !== lit] *)
Definition differs (v : option string) (lit : string) : bool :=
  match v with
  | Some s => negb (String.eqb s lit)
  | None => true
  end.

(** [status === lit] *)
Definition equals (v : option string) (lit : string) : bool :=
  negb (differs v lit).

(** [Array.isArray(output) ? output[0] : output] *)
Definition first_or_self (o : Output) : option string :=
  match o with
  | NoOutput => None
  | OneUrl u => Some u
  | Urls us => hd_error us
  end.

(** ** Calls and their answers *)

(** The calls [handleProcess] makes on the browser and on the libraries it
    imports: [toast.error(msg)], [logger.error(label, err)], the two state
    setters, [fetch(url, init)] (with the body of the POST, or nothing for a
    GET), [response.json()], the [setTimeout(r, ms)] of [sleep], and
    [window.dispatchEvent(new CustomEvent(type, { detail: { outputUrl } }))]. *)
Inductive Call : Type :=
| toast_error (msg : string)
| logger_error (label : string) (err : Thrown)
| setStatus (s : Status)
| setStatusMessage (m : string)
| fetch (url : string) (init : option RequestBody)
| response_json (r : Response)
| setTimeout (ms : N)
| dispatchEvent (type : string) (outputUrl : option string).

(** What a call returns, or what the promise it returns settles to. *)
Definition Answer (c : Call) : Type :=
  match c with
  | fetch _ _ => Settled Response
  | response_json _ => Settled Body
  | _ => unit
  end.

(** The events of the interaction trees: a call, answered from outside. *)
Variant browserE : Type -> Type :=
| Do (c : Call) : browserE (Answer c).

(** An [async] computation: a tree of calls that ends fulfilled or
    rejected. *)
Definition Js (A : Type) : Type := itree browserE (Settled A).

(** Normal completion, and [throw]. *)
Definition ret {A} (a : A) : Js A := Ret (Fulfilled a).
Definition throw {A} (t : Thrown) : Js A := Ret (Rejected t).

(** Sequencing: a rejection skips the rest. *)
Definition bindJs {A B} (m : Js A) (k : A -> Js B) : Js B :=
  ITree.bind m (fun r =>
    match r with
    | Fulfilled a => k a
    | Rejected t => Ret (Rejected t)
    end).

(** [try { body } catch (error) { handler }] *)
Definition try_catch {A} (body : Js A) (handler : Thrown -> Js A) : Js A :=
  ITree.bind body (fun r =>
    match r with
    | Fulfilled a => Ret (Fulfilled a)
    | Rejected t => handler t
    end).

(** Making a call; the environment answers it. *)
Definition call (c : Call) : itree browserE (Answer c) := ITree.trigger (Do c).

(** A call that returns at once and whose result is not used: the state
    setters, the toasts, the logger, [dispatchEvent] and the timer of
    [sleep].  None of them throws. *)
Definition act (c : Call) : Js unit :=
  ITree.bind (call c) (fun _ => ret tt).

(** [await fetch(url, init)] and [await response.json()]: the promise's
    rejection is rethrown at the [await]. *)
Definition await_fetch (url : string) (init : option RequestBody) : Js Response :=
  call (fetch url init).

Definition await_json (r : Response) : Js Body :=
  call (response_json r).

(** The TypeError thrown by [value.property] when [value] is [null].  Its
    message is the engine's; this is the wording of V8. *)
Definition null_read (property : string) : Thrown :=
  JsError ("Cannot read properties of null (reading '" ++ property ++ "')").

(** The first read of a property of a parsed body, [body.property]: it
    throws when the body is [null]; otherwise the body has properties, and
    the reads that follow cannot throw. *)
Definition nonnull (body : Body) (property : string) : Js Json :=
  match body with
  | JsonObject fields => ret fields
  | JsonNull => throw (null_read property)
  end.

(** [x <- m ;; k] is [const x = await m; k], and [m ;; k] is [m; k]. *)
Declare Scope js_scope.
Delimit Scope js_scope with js.
Notation "x <- m ;; k" := (bindJs m (fun x => k))
  (at level 61, m at next level, right associativity) : js_scope.
Notation "m ;; k" := (bindJs m (fun _ => k))
  (at level 61, right associativity) : js_scope.
Local Open Scope js_scope.

(** [while (guard) { body }], where the body says whether it ran to its end
    or left through [break]. *)
Inductive LoopExit : Type := Continue | Break.

(** One turn: test the guard, run the body, and go round again ([inl]) or
    leave the loop ([inr]). *)
Definition while_turn (guard : unit -> bool) (body : Js LoopExit)
  : unit -> itree browserE (unit + Settled unit) :=
  fun _ =>
    if guard tt
    then ITree.bind body (fun r =>
           match r with
           | Fulfilled Continue => Ret (inl tt)
           | Fulfilled Break => Ret (inr (Fulfilled tt))
           | Rejected t => Ret (inr (Rejected t))
           end)
    else Ret (inr (Fulfilled tt)).

Definition while_ (guard : unit -> bool) (body : Js LoopExit) : Js unit :=
  ITree.iter (while_turn guard body) tt.

(** ** The component's functions *)

(** [const sleep = (ms) => new Promise((r) => setTimeout(r, ms))] *)
Definition sleep (ms : N) : Js unit := act (setTimeout ms).

(** [onProcessComplete]: a [CustomEvent] named ['processComplete'] with
    [detail: { outputUrl }], dispatched on [window]. *)
Definition onProcessComplete (outputUrl : option string) : Js unit :=
  act (dispatchEvent "processComplete" outputUrl).

(** The body of the creation request (lines 58-65). *)
Definition creation_request (p : Props) : RequestBody :=
  {| model := MODEL;
     input_image := show (previewUrl p);
     input_scale := scale p;
     input_face_enhance := enhanceFace p |}.

(** The guard of the poll loop (lines 77-80): it reads [prediction], the
    body of the creation response, which is a [const].  Its first evaluation
    is the first read of a property of [prediction]. *)
Definition poll_guard (prediction : Json) : unit -> bool :=
  fun _ => differs (j_status prediction) "succeeded" &&
           differs (j_status prediction) "failed".

(** One turn of the poll loop (lines 81-102).  The first property read of
    [updatedPrediction] is the [status] of line 87. *)
Definition poll_turn (prediction : Json) : Js LoopExit :=
  sleep 1000 ;;
  statusResponse <- await_fetch ("/api/predictions/" ++ show (j_id prediction)) None ;;
  (if negb (ok statusResponse) then
     throw (JsError "Failed to check prediction status")
   else ret tt) ;;
  updatedPrediction <- await_json statusResponse ;;
  updatedPrediction <- nonnull updatedPrediction "status" ;;
  act (setStatusMessage ("Processing: " ++ show (j_status updatedPrediction))) ;;
  (if equals (j_status updatedPrediction) "failed" then
     throw (JsError (or_else (j_error updatedPrediction) "Processing failed"))
   else ret tt) ;;
  if equals (j_status updatedPrediction) "succeeded" then
    let outputUrl := first_or_self (j_output updatedPrediction) in
    act (setStatus Complete) ;;
    act (setStatusMessage "Processing complete!") ;;
    onProcessComplete outputUrl ;;
    ret Break
  else ret Continue.

(** The [try] block (lines 49-103).  The first property read of [error] is
    the [error.error] of line 70; the first of [prediction] is the
    [prediction.status] of the loop's guard (line 78), evaluated after
    [setStatus('processing')]. *)
Definition submit_and_poll (p : Props) : Js unit :=
  act (setStatus Uploading) ;;
  act (setStatusMessage "Starting image processing...") ;;
  response <- await_fetch "/api/replicate" (Some (creation_request p)) ;;
  (if negb (ok response) then
     error <- await_json response ;;
     error <- nonnull error "error" ;;
     throw (JsError (or_else (j_error error) "Failed to process image"))
   else ret tt) ;;
  prediction <- await_json response ;;
  act (setStatus Processing) ;;
  prediction <- nonnull prediction "status" ;;
  while_ (poll_guard prediction) (poll_turn prediction).

(** [error instanceof Error ? error.message : 'Failed to process image'] *)
Definition message_of (error : Thrown) : string :=
  match error with
  | JsError message => message
  | NonError _ => "Failed to process image"
  end.

(** The [catch] block (lines 105-108). *)
Definition on_error (error : Thrown) : Js unit :=
  act (logger_error "Processing failed:" error) ;;
  act (setStatus Error) ;;
  act (setStatusMessage (message_of error)) ;;
  act (toast_error "Processing failed. Please try again.").

(** [handleProcess] (lines 40-110): the two guard clauses, then the [try]
    block with its [catch]. *)
Definition handleProcess (p : Props) : Js unit :=
  if negb (present (user p)) then
    act (toast_error "Please log in to continue")
  else if negb (present (selectedFile p)) || negb (truthy (previewUrl p)) then
    ret tt
  else
    try_catch (submit_and_poll p) on_error.

(** ** One invocation against a scripted environment *)

(** What the remote service and the browser do in one run: what the creation
    request settles to, what the k-th status request settles to, and how
    long the n-th call of the run takes beyond its nominal duration. *)
Record Env : Type := mkEnv {
  creation : Settled Response;
  status_reply : nat -> Settled Response;
  latency : nat -> N
}.

(** An entry of the journal of a run: a call, when it was made, and the
    answer it got. *)
Record Entry : Type := mkEntry {
  at_ms : N;
  what : Call;
  got : Answer what
}.

(** The component's two state cells, the clock, and the calls made so far
    (newest first). *)
Record World : Type := mkWorld {
  status : Status;
  statusMessage : string;
  now : N;
  past : list Entry
}.

(** A status request: the [fetch] with no [init], a GET of
    [/api/predictions/{id}]. *)
Definition is_poll (c : Call) : bool :=
  match c with
  | fetch _ None => true
  | _ => false
  end.

(** Number of status requests made so far. *)
Definition polls (w : World) : nat :=
  length (filter (fun e => is_poll (what e)) (past w)).

(** What the environment answers: the creation response to the POST, the
    next status response to a GET, and to [response.json()] what the
    response carries. *)
Definition answer (env : Env) (w : World) (c : Call) : Answer c :=
  match c with
  | fetch _ (Some _) => creation env
  | fetch _ None => status_reply env (polls w)
  | response_json r => json r
  | _ => tt
  end.

(** Time a call takes: nothing for the synchronous ones; a timer fires no
    earlier than its delay. *)
Definition duration (env : Env) (w : World) (c : Call) : N :=
  match c with
  | fetch _ _ | response_json _ => latency env (length (past w))
  | setTimeout ms => ms + latency env (length (past w))
  | _ => 0
  end.

(** The world after a call: the state cells follow the setters, the clock
    advances, the call is entered in the journal with its answer. *)
Definition perform (env : Env) (w : World) (c : Call) : World :=
  {| status := match c with setStatus s => s | _ => status w end;
     statusMessage := match c with setStatusMessage m => m | _ => statusMessage w end;
     now := now w + duration env w c;
     past := {| at_ms := now w; what := c; got := answer env w c |} :: past w |}.

(** The handler of the events. *)
Definition handle (env : Env) {X} (e : browserE X) (w : World) : X * World :=
  match e with
  | Do c => (answer env w c, perform env w c)
  end.

(** Running a tree for at most [fuel] calls and loop turns.  The result is
    [None] when the fuel ran out before the tree returned. *)
Fixpoint exec (env : Env) {R} (fuel : nat) (t : itree browserE R) (w : World)
  : World * option R :=
  match observe t with
  | RetF r => (w, Some r)
  | TauF t' =>
      match fuel with
      | O => (w, None)
      | S n => exec env n t' w
      end
  | VisF e k =>
      match fuel with
      | O => (w, None)
      | S n => let (x, w') := handle env e w in exec env n (k x) w'
      end
  end.

(** A run of [handleProcess] starts with nothing in the journal, whatever
    the status, the message and the time. *)
Definition boot (s : Status) (m : string) (t0 : N) : World :=
  {| status := s; statusMessage := m; now := t0; past := [] |}.

(** The same interpreter with the rest of the computation as a
    continuation; it is what [exec] does under a [bind]. *)
Fixpoint exec_k (env : Env) {R S} (fuel : nat) (t : itree browserE R) (w : World)
  (K : nat -> R -> World -> World * option S) : World * option S :=
  match observe t with
  | RetF r => K fuel r w
  | TauF t' =>
      match fuel with
      | O => (w, None)
      | S n => exec_k env n t' w K
      end
  | VisF e k =>
      match fuel with
      | O => (w, None)
      | S n => let (x, w') := handle env e w in exec_k env n (k x) w' K
      end
  end.

(** ** Reading the journal of a run *)

(** The journal of a run, oldest entry first. *)
Definition timeline (w : World) : list Entry := rev (past w).

(** The calls of a run, oldest first. *)
Definition calls (w : World) : list Call := rev (map what (past w)).

(** The status a call writes, if it is [setStatus]. *)
Definition status_written (c : Call) : option Status :=
  match c with
  | setStatus s => Some s
  | _ => None
  end.

(** The elements of a list that [f] maps to something, mapped. *)
Fixpoint keep {A B} (f : A -> option B) (l : list A) : list B :=
  match l with
  | [] => []
  | a :: l' =>
      match f a with
      | Some b => b :: keep f l'
      | None => keep f l'
      end
  end.

(** The values given to [setStatus], oldest first: the transitions of the
    UI status. *)
Definition transitions (w : World) : list Status := keep status_written (calls w).

(** A network call. *)
Definition is_fetch (c : Call) : bool :=
  match c with
  | fetch _ _ => true
  | _ => false
  end.

(** The network calls of a run. *)
Definition network (w : World) : list Call := filter is_fetch (calls w).

(** The event a call dispatches: its name and its [detail.outputUrl]. *)
Definition event_dispatched (c : Call) : option (string * option string) :=
  match c with
  | dispatchEvent type outputUrl => Some (type, outputUrl)
  | _ => None
  end.

(** The events dispatched on [window], with their [detail.outputUrl]. *)
Definition dispatched (w : World) : list (string * option string) :=
  keep event_dispatched (calls w).

(** The message a call shows as a toast. *)
Definition toast_shown (c : Call) : option string :=
  match c with
  | toast_error msg => Some msg
  | _ => None
  end.

(** The transient notifications. *)
Definition toasts (w : World) : list string := keep toast_shown (calls w).

(** A terminal status of the remote job: "succeeded" or "failed". *)
Definition terminal (st : option string) : bool :=
  equals st "succeeded" || equals st "failed".

(** What a status request was answered. *)
Definition received_status (e : Entry) : option (Settled Response) :=
  match what e as c return Answer c -> option (Settled Response) with
  | fetch _ None => fun r => Some r
  | _ => fun _ => None
  end (got e).

(** The status responses a run has received so far, in order. *)
Definition polled (w : World) : list (Settled Response) :=
  keep received_status (timeline w).

(** The body of a successful status response: the request was answered, the
    response is [ok] and its body parsed to a value with properties. *)
Definition status_response (r : Settled Response) : option Json :=
  match r with
  | Fulfilled resp =>
      if ok resp
      then match json resp with
           | Fulfilled (JsonObject body) => Some body
           | _ => None
           end
      else None
  | Rejected _ => None
  end.

(** A status response that lets the loop go round again: it arrived, it is
    [ok], its body parsed, and its status is neither "failed" nor
    "succeeded". *)
Definition quiet (r : Settled Response) : bool :=
  match r with
  | Fulfilled resp =>
      ok resp &&
      match json resp with
      | Fulfilled (JsonObject body) => negb (terminal (j_status body))
      | _ => false
      end
  | Rejected _ => false
  end.

(** The user is signed in, a file is selected and its preview URL is set:
    the two guard clauses of [handleProcess] let the invocation through. *)
Definition ready (p : Props) : bool :=
  present (user p) && present (selectedFile p) && truthy (previewUrl p).

(** The calls of an invocation whose creation response already carries a
    terminal status. *)
Definition calls_skipping_the_loop (p : Props) (r : Response) : list Call :=
  [ setStatus Uploading;
    setStatusMessage "Starting image processing...";
    fetch "/api/replicate" (Some (creation_request p));
    response_json r;
    setStatus Processing ].

(** ** Failures *)

(** What a failed creation request makes the [try] block throw: the
    rejection of [fetch] (network failure), the message built from the body
    of a non-[ok] response, the TypeError of reading a [null] body (its
    [error] if the response is not [ok], its [status] in the loop's guard if
    it is), or the rejection of [response.json()]. *)
Inductive creation_throws : Settled Response -> Thrown -> Prop :=
| creation_unreachable t :
    creation_throws (Rejected t) t
| creation_http_failure resp body :
    ok resp = false -> json resp = Fulfilled (JsonObject body) ->
    creation_throws (Fulfilled resp)
      (JsError (or_else (j_error body) "Failed to process image"))
| creation_http_failure_null resp :
    ok resp = false -> json resp = Fulfilled JsonNull ->
    creation_throws (Fulfilled resp) (null_read "error")
| creation_null resp :
    ok resp = true -> json resp = Fulfilled JsonNull ->
    creation_throws (Fulfilled resp) (null_read "status")
| creation_unreadable resp t :
    json resp = Rejected t ->
    creation_throws (Fulfilled resp) t.

(** What a status response makes a turn of the loop throw. *)
Inductive poll_throws : Settled Response -> Thrown -> Prop :=
| poll_unreachable t :
    poll_throws (Rejected t) t
| poll_http_failure resp :
    ok resp = false ->
    poll_throws (Fulfilled resp) (JsError "Failed to check prediction status")
| poll_unreadable resp t :
    ok resp = true -> json resp = Rejected t ->
    poll_throws (Fulfilled resp) t
| poll_null resp :
    ok resp = true -> json resp = Fulfilled JsonNull ->
    poll_throws (Fulfilled resp) (null_read "status")
| poll_job_failed resp body :
    ok resp = true -> json resp = Fulfilled (JsonObject body) ->
    equals (j_status body) "failed" = true ->
    poll_throws (Fulfilled resp)
      (JsError (or_else (j_error body) "Processing failed")).

(** The failures of a run: the creation request fails, or the job is in
    flight, [k] status responses are quiet and the next one fails. *)
Inductive fails (env : Env) : Thrown -> Prop :=
| fails_at_creation t :
    creation_throws (creation env) t -> fails env t
| fails_at_poll resp prediction k t :
    creation env = Fulfilled resp -> ok resp = true ->
    json resp = Fulfilled (JsonObject prediction) ->
    terminal (j_status prediction) = false ->
    (forall j, (j < k)%nat -> quiet (status_reply env j) = true) ->
    poll_throws (status_reply env k) t ->
    fails env t.

(** ** Monitors: what every run does, whatever the answers *)

(** A monitor watches the calls of a tree one by one: in each state it says
    which calls are allowed, and it moves on with the call and its answer. *)
Record Monitor : Type := mkMonitor {
  mstate : Type;
  allowed : mstate -> Call -> bool;
  next : mstate -> forall c : Call, Answer c -> mstate
}.

Section Obeys.
Variable M : Monitor.
Context {R : Type}.
Variable Post : R -> mstate M -> Prop.

(** One step of "the tree only makes allowed calls, whatever it is
    answered, and if it returns [r] with the monitor in state [q] then
    [Post r q]". *)
Definition obeysF (rec : mstate M -> itree browserE R -> Prop)
    (q : mstate M) (ot : itree' browserE R) : Prop :=
  match ot with
  | RetF r => Post r q
  | TauF t => rec q t
  | VisF e k =>
      match e in browserE X return (X -> itree browserE R) -> Prop with
      | Do c => fun k => allowed M q c = true /\ forall x, rec (next M q c x) (k x)
      end k
  end.

(** The same step on trees. *)
Definition obeys_ (rec : mstate M -> itree browserE R -> Prop)
    (q : mstate M) (t : itree browserE R) : Prop :=
  obeysF rec q (observe t).

(** The greatest such predicate: it holds of trees that run forever too. *)
Definition obeys : mstate M -> itree browserE R -> Prop := paco2 obeys_ bot2.

End Obeys.

(** The monitor run over a journal (newest entry first): the state it ends
    in, if every call was allowed when it was made. *)
Fixpoint replay (M : Monitor) (q0 : mstate M) (journal : list Entry) : option (mstate M) :=
  match journal with
  | [] => Some q0
  | e :: older =>
      match replay M q0 older with
      | Some q => if allowed M q (what e) then Some (next M q (what e) (got e)) else None
      | None => None
      end
  end.

(** ** Two monitors for the status requests *)

(** Has a timer of a second or more been awaited since the last status
    request?  A status request is allowed only then. *)
Definition Pace : Monitor :=
  {| mstate := bool;
     allowed := fun waited c => if is_poll c then waited else true;
     next := fun waited c _ =>
       match c with
       | setTimeout ms => waited || (1000 <=? ms)
       | fetch _ None => false
       | _ => waited
       end |}.

(** Has a parsed body with status "succeeded" or "failed" been received?
    No status request is allowed after that. *)
Definition reports_terminal (c : Call) : Answer c -> bool :=
  match c return Answer c -> bool with
  | response_json _ => fun x =>
      match x with
      | Fulfilled (JsonObject body) => terminal (j_status body)
      | _ => false
      end
  | _ => fun _ => false
  end.

Definition Halt : Monitor :=
  {| mstate := bool;
     allowed := fun seen c => if is_poll c then negb seen else true;
     next := fun seen c x => seen || reports_terminal c x |}.

(** ** What an accepted journal looks like *)

(** [e1] is an earlier entry than [e2]. *)
Definition before (tl : list Entry) (e1 e2 : Entry) : Prop :=
  exists l1 l2 l3, tl = (l1 ++ e1 :: l2 ++ e2 :: l3)%list.

(** The least time a call takes. *)
Definition least_duration (c : Call) : N :=
  match c with
  | setTimeout ms => ms
  | _ => 0
  end.

(** The clock of a journal (newest first): each call was made when the
    previous one was over. *)
Fixpoint timed (journal : list Entry) (now : N) : Prop :=
  match journal with
  | [] => True
  | e :: older => at_ms e + least_duration (what e) <= now /\ timed older (at_ms e)
  end.

(** Every status request is made a second or more after each earlier one
    (journal newest first). *)
Fixpoint spaced (journal : list Entry) : Prop :=
  match journal with
  | [] => True
  | e :: older =>
      (is_poll (what e) = true ->
       forall e', In e' older -> is_poll (what e') = true -> at_ms e' + 1000 <= at_ms e)
      /\ spaced older
  end.

(** Has the journal an entry that reports a terminal status? *)
Definition seen_in (journal : list Entry) : bool :=
  existsb (fun e => reports_terminal (what e) (got e)) journal.

(** No status request was made after such an entry (journal newest
    first). *)
Fixpoint halted (journal : list Entry) : Prop :=
  match journal with
  | [] => True
  | e :: older => (is_poll (what e) = true -> seen_in older = false) /\ halted older
  end.

(** ** A monitor for the UI status *)

(** idle, then uploading, then processing, then complete or error. *)
Definition rank (s : Status) : nat :=
  match s with
  | Idle => 0
  | Uploading => 1
  | Processing => 2
  | Complete | Error => 3
  end.

(** [status === 'processing' || status === 'uploading'] (line 160) *)
Definition in_progress (s : Status) : bool :=
  Status_eqb s Processing || Status_eqb s Uploading.

(** The calls [handleProcess] awaits. *)
Definition awaited (c : Call) : bool :=
  match c with
  | fetch _ _ | response_json _ | setTimeout _ => true
  | _ => false
  end.

(** Where an invocation stands: it has not written the status yet, or the
    status it wrote last. *)
Inductive Stage : Type :=
| Fresh
| At (s : Status).

(** An invocation first writes "uploading"; after that it only writes a
    status of higher rank; and it only suspends while the status it wrote is
    "uploading" or "processing". *)
Definition Forward : Monitor :=
  {| mstate := Stage;
     allowed := fun q c =>
       match q, c with
       | Fresh, setStatus s => Status_eqb s Uploading
       | At s, setStatus s' => (rank s <? rank s')%nat
       | Fresh, _ => negb (awaited c)
       | At s, _ => if awaited c then in_progress s else true
       end;
     next := fun q c _ =>
       match c with
       | setStatus s => At s
       | _ => q
       end |}.

(** ** The page: clicks, suspended invocations and their answers *)

(** [disabled={!selectedFile || status === 'processing' || status ===
    'uploading'}] (line 160): a disabled button delivers no click. *)
Definition disabled (p : Props) (st : Status) : bool :=
  negb (present (selectedFile p)) || in_progress st.

(** Was the status written by the code a click started, before its first
    [await], or by code resumed by an answer? *)
Inductive Origin : Type :=
| Submission
| Continuation.

Record Write : Type := mkWrite {
  w_from : Status;
  w_to : Status;
  w_origin : Origin
}.

(** The component between two events of the browser: its two state cells,
    the invocation that is executing (JavaScript runs it until its next
    [await]), the invocations suspended at an [await], and every write of the
    status so far (newest first). *)
Record Page : Type := mkPage {
  shown : Status;
  caption : string;
  running : option (Origin * Js unit);
  waiting : list (Js unit);
  writes : list Write
}.

(** What the browser settles an awaited call with. *)
Inductive Reply : Type :=
| Responded (r : Settled Response)
| Parsed (j : Settled Body)
| Fired.

(** What can happen next: the user clicks the button (with the props of the
    moment), the promise a suspended invocation awaits is settled, or the
    executing invocation makes its next step. *)
Inductive Stimulus : Type :=
| Click (p : Props)
| Settle (i : nat) (a : Reply)
| Step.

(** The answer of a call that returns at once. *)
Definition immediate (c : Call) : option (Answer c) :=
  match c return option (Answer c) with
  | fetch _ _ => None
  | response_json _ => None
  | setTimeout _ => None
  | _ => Some tt
  end.

(** The answer an awaited call gets from a reply of the right kind. *)
Definition settle (c : Call) (a : Reply) : option (Answer c) :=
  match c return option (Answer c) with
  | fetch _ _ => match a with Responded r => Some r | _ => None end
  | response_json _ => match a with Parsed j => Some j | _ => None end
  | setTimeout _ => match a with Fired => Some tt | _ => None end
  | _ => None
  end.

(** The list without its i-th element. *)
Definition drop_nth {A} (i : nat) (l : list A) : list A :=
  (firstn i l ++ skipn (S i) l)%list.

(** One step of the executing invocation. *)
Definition advance (o : Origin) (t : Js unit) (pg : Page) : Page :=
  match observe t with
  | RetF _ =>
      {| shown := shown pg; caption := caption pg; running := None;
         waiting := waiting pg; writes := writes pg |}
  | TauF t' =>
      {| shown := shown pg; caption := caption pg; running := Some (o, t');
         waiting := waiting pg; writes := writes pg |}
  | VisF e k =>
      match e in browserE X return (X -> Js unit) -> Page with
      | Do c => fun k =>
          match immediate c with
          | Some x =>
              {| shown := match c with setStatus s => s | _ => shown pg end;
                 caption := match c with setStatusMessage m => m | _ => caption pg end;
                 running := Some (o, k x);
                 waiting := waiting pg;
                 writes := match c with
                           | setStatus s =>
                               {| w_from := shown pg; w_to := s; w_origin := o |} :: writes pg
                           | _ => writes pg
                           end |}
          | None =>
              {| shown := shown pg; caption := caption pg; running := None;
                 waiting := (waiting pg ++ [t])%list; writes := writes pg |}
          end
      end k
  end.

(** A suspended invocation is resumed with the answer to its call. *)
Definition resume (i : nat) (a : Reply) (t : Js unit) (pg : Page) : Page :=
  match observe t with
  | VisF e k =>
      match e in browserE X return (X -> Js unit) -> Page with
      | Do c => fun k =>
          match settle c a with
          | Some x =>
              {| shown := shown pg; caption := caption pg;
                 running := Some (Continuation, k x);
                 waiting := drop_nth i (waiting pg); writes := writes pg |}
          | None => pg
          end
      end k
  | _ => pg
  end.

(** The page after a stimulus.  A click is lost when the button is disabled
    and cannot arrive while an invocation is executing; an answer resumes the
    suspended invocation it is for, if it is of the right kind. *)
Definition react (pg : Page) (st : Stimulus) : Page :=
  match st, running pg with
  | Step, Some (o, t) => advance o t pg
  | Click p, None =>
      if disabled p (shown pg) then pg
      else {| shown := shown pg; caption := caption pg;
              running := Some (Submission, handleProcess p);
              waiting := waiting pg; writes := writes pg |}
  | Settle i a, None =>
      match nth_error (waiting pg) i with
      | Some t => resume i a t pg
      | None => pg
      end
  | _, _ => pg
  end.

(** The page as mounted: [useState('idle')], [useState('')]. *)
Definition mounted : Page :=
  {| shown := Idle; caption := ""; running := None; waiting := []; writes := [] |}.

(** The page after a sequence of stimuli. *)
Definition play (stimuli : list Stimulus) : Page := fold_left react stimuli mounted.

(** A write moves the status forward, or it is the write of "uploading" by
    a fresh submission. *)
Definition moves_forward (wr : Write) : Prop :=
  (rank (w_from wr) < rank (w_to wr))%nat
  \/ (w_origin wr = Submission /\ w_to wr = Uploading).

(** What holds of the page between any two stimuli: every write so far
    moved forward; at most one invocation is alive; if it is executing, it
    obeys [Forward] from the status shown (or it has just been started by a
    click); if it is suspended, the status shown is "uploading" or
    "processing", so the button is disabled. *)
Definition page_invariant (pg : Page) : Prop :=
  Forall moves_forward (writes pg) /\
  match running pg, waiting pg with
  | None, [] => True
  | Some (o, t), [] =>
      exists q, obeys Forward (fun _ _ => True) q t
                /\ (q = At (shown pg) \/ (q = Fresh /\ o = Submission))
  | None, [t] =>
      obeys Forward (fun _ _ => True) (At (shown pg)) t /\ in_progress (shown pg) = true
  | _, _ => False
  end.

(** ** A monitor for the requests *)

(** The URL of a status request (line 82), for the body of the creation
    response. *)
Definition status_url (prediction : Json) : string :=
  "/api/predictions/" ++ show (j_id prediction).

(** Equality of responses and of request bodies can be decided. *)
Definition Thrown_eq_dec (a b : Thrown) : {a = b} + {a <> b}.
Proof. decide equality; apply string_dec. Defined.

Definition Output_eq_dec (a b : Output) : {a = b} + {a <> b}.
Proof. decide equality; [apply string_dec | apply (list_eq_dec string_dec)]. Defined.

Definition Json_eq_dec (a b : Json) : {a = b} + {a <> b}.
Proof.
  decide equality; try apply Output_eq_dec;
    decide equality; apply string_dec.
Defined.

Definition Body_eq_dec (a b : Body) : {a = b} + {a <> b}.
Proof. decide equality; apply Json_eq_dec. Defined.

Definition Response_eq_dec (a b : Response) : {a = b} + {a <> b}.
Proof.
  decide equality; [|apply bool_dec].
  decide equality; [apply Body_eq_dec | apply Thrown_eq_dec].
Defined.

Definition RequestBody_eq_dec (a b : RequestBody) : {a = b} + {a <> b}.
Proof. decide equality; first [apply bool_dec | apply N.eq_dec | apply string_dec]. Defined.

(** Where an invocation stands with the service: nothing sent yet; the
    creation request sent and settled; the body of a non-[ok] creation
    response read; the body of an [ok] creation response read. *)
Inductive Wire : Type :=
| Unsent
| Sent (x : Settled Response)
| Refused
| Created (a : Settled Body).

(** The one request with a body is the creation request of lines 53-66, and
    it comes first; the body read next is the body of its response; every
    request after that is a GET of the status URL built from the [id] that
    body carries. *)
Definition Requests (p : Props) : Monitor :=
  {| mstate := Wire;
     allowed := fun q c =>
       match c with
       | fetch url (Some body) =>
           match q with
           | Unsent =>
               String.eqb url "/api/replicate" &&
               (if RequestBody_eq_dec body (creation_request p) then true else false)
           | _ => false
           end
       | fetch url None =>
           match q with
           | Created (Fulfilled (JsonObject prediction)) =>
               String.eqb url (status_url prediction)
           | _ => false
           end
       | response_json r =>
           match q with
           | Sent (Fulfilled r') => if Response_eq_dec r r' then true else false
           | Created _ => true
           | _ => false
           end
       | _ => true
       end;
     next := fun q c =>
       match c return Answer c -> Wire with
       | fetch _ (Some _) => fun x => Sent x
       | response_json _ => fun a =>
           match q with
           | Sent (Fulfilled r') => if ok r' then Created a else Refused
           | _ => q
           end
       | _ => fun _ => q
       end |}.

(** The answers of the journal are the environment's: the creation request
    got [creation env], and [response.json()] got what the response
    carries. *)
Definition scripted (env : Env) (e : Entry) : Prop :=
  match what e as c return Answer c -> Prop with
  | fetch _ (Some _) => fun x => x = creation env
  | response_json r => fun a => a = json r
  | _ => fun _ => True
  end (got e).

(** The requests of a journal, newest first. *)
Definition requests (journal : list Entry) : list Call :=
  filter is_fetch (map what journal).

(** What the requests made so far are, by the state of [Requests]. *)
Definition wire_shape (env : Env) (p : Props) (q : Wire) (journal : list Entry) : Prop :=
  match q with
  | Unsent => requests journal = []
  | Sent x =>
      x = creation env /\
      requests journal = [fetch "/api/replicate" (Some (creation_request p))]
  | Refused =>
      requests journal = [fetch "/api/replicate" (Some (creation_request p))]
  | Created a =>
      exists r, creation env = Fulfilled r /\ ok r = true /\ json r = a /\
      match a with
      | Fulfilled (JsonObject prediction) =>
          exists n, requests journal
                    = (repeat (fetch (status_url prediction) None) n
                       ++ [fetch "/api/replicate" (Some (creation_request p))])%list
      | _ =>
          requests journal = [fetch "/api/replicate" (Some (creation_request p))]
      end
  end.

(** ** A monitor that keeps the calls *)

(** Every call is allowed; the state is the list of the calls made so far,
    oldest first. *)
Definition Trace : Monitor :=
  {| mstate := list Call;
     allowed := fun _ _ => true;
     next := fun h c _ => (h ++ [c])%list |}.

(** The message a call writes, if it is [setStatusMessage]. *)
Definition message_written (c : Call) : option string :=
  match c with
  | setStatusMessage m => Some m
  | _ => None
  end.

(** The calls of the [catch] block (lines 105-108). *)
Definition calls_of_catch (error : Thrown) : list Call :=
  [ logger_error "Processing failed:" error;
    setStatus Error;
    setStatusMessage (message_of error);
    toast_error "Processing failed. Please try again." ].

(** The last three calls of the turn that reads "succeeded" (lines
    98-100). *)
Definition calls_of_success (outputUrl : option string) : list Call :=
  [ setStatus Complete;
    setStatusMessage "Processing complete!";
    dispatchEvent "processComplete" outputUrl ].

(** The calls so far wrote the statuses [sts], and neither dispatched an
    event nor showed a toast. *)
Definition underway (sts : list Status) (h : list Call) : Prop :=
  keep status_written h = sts /\ keep event_dispatched h = [] /\ keep toast_shown h = [].

(** The calls of an invocation that has returned: none, or the log-in toast
    (the guard clauses); the five calls up to [setStatus('processing')], the
    loop skipped; calls ending with those of a success; calls ending with
    those of the [catch] block. *)
Definition ending (p : Props) (h : list Call) : Prop :=
  h = []
  \/ h = [toast_error "Please log in to continue"]
  \/ (exists r, h = calls_skipping_the_loop p r)
  \/ (exists before outputUrl,
        h = (before ++ calls_of_success outputUrl)%list
        /\ underway [Uploading; Processing] before)
  \/ (exists before error,
        h = (before ++ calls_of_catch error)%list
        /\ (underway [Uploading] before \/ underway [Uploading; Processing] before)).

(** ** The clock of a run *)

(** The clock of a journal (newest first) of a run started at [t0]. *)
Fixpoint clocked (t0 : N) (journal : list Entry) (now : N) : Prop :=
  match journal with
  | [] => t0 <= now
  | e :: older => at_ms e + least_duration (what e) <= now /\ clocked t0 older (at_ms e)
  end.

(** ** What the component renders *)

(** The JSX returned by the component (lines 118-188), as the parts of the
    screen it decides: the upload box, the input preview with its image
    source, the upscale controls with the values they show, the status
    display, the button (disabled or not, its class and its text), and the
    result with the URL of its image and download link. *)
Record Screen : Type := mkScreen {
  file_upload : bool;
  input_preview : option string;
  upscale_controls : option (N * bool);
  processing_status : Status * string;
  button_disabled : bool;
  button_className : string;
  button_text : string;
  result : option string
}.

(** [processedImageUrl] and [serviceId] are the two props [handleProcess]
    does not read.  [cond && (<div>...)] renders the element when [cond] is
    truthy and nothing when it is [null] or [""]. *)
Definition render (p : Props) (processedImageUrl : option string) (serviceId : string)
    (st : Status) (message : string) : Screen :=
  {| file_upload := negb (present (selectedFile p));
     input_preview :=
       if present (selectedFile p) && truthy (previewUrl p) then previewUrl p else None;
     upscale_controls :=
       if present (selectedFile p) && truthy (previewUrl p) && String.eqb serviceId "upscale"
       then Some (scale p, enhanceFace p)
       else None;
     processing_status := (st, message);
     button_disabled := disabled p st;
     button_className :=
       "w-full py-3 rounded-lg transition-colors " ++
       (if present (selectedFile p) && Status_eqb st Idle
        then "bg-purple-500 hover:bg-purple-600"
        else "bg-gray-600 cursor-not-allowed");
     button_text := if Status_eqb st Idle then "Process Image" else "Processing...";
     result := if truthy processedImageUrl then processedImageUrl else None |}.

(** ** Sessions of the page *)

(** The status the page shows is the one written last, or "idle" if none
    was. *)
Definition last_written (pg : Page) : Status :=
  match writes pg with
  | [] => Idle
  | wr :: _ => w_to wr
  end.

(** The stimuli of a submission up to its first [await]: the click, the two
    setters, and the creation request, at which the invocation suspends. *)
Definition submission (p : Props) : list Stimulus :=
  [Click p; Step; Step; Step].

(** The stimuli of a whole invocation whose creation response is [r], with
    an [ok] flag and a body that parses: the submission, the response, the
    reading of its body, [setStatus('processing')] and the test of the
    loop's guard. *)
Definition creation_answered (p : Props) (r : Response) : list Stimulus :=
  (submission p ++
   [Settle 0 (Responded (Fulfilled r)); Step; Settle 0 (Parsed (json r)); Step; Step])%list.

(** ** Concrete inputs *)

(** A user is signed in and a file is selected. *)
Definition signed_in : Props :=
  {| user := Some "u1"; selectedFile := Some "cat.png";
     previewUrl := Some "data:image/png;base64,AAAA";
     scale := 4; enhanceFace := false |}.

(** Nobody is signed in. *)
Definition signed_out : Props :=
  {| user := None; selectedFile := Some "cat.png";
     previewUrl := Some "data:image/png;base64,AAAA";
     scale := 4; enhanceFace := false |}.

(** A user is signed in, no file is selected. *)
Definition no_file_selected : Props :=
  {| user := Some "u1"; selectedFile := None; previewUrl := None;
     scale := 4; enhanceFace := false |}.

(** The body [{"id": "p1", "status": st, "output": o, "error": e}]. *)
Definition prediction_body (st : string) (o : Output) (e : option string) : Json :=
  {| j_id := Some "p1"; j_status := Some st; j_output := o; j_error := e |}.

Definition prediction_response (st : string) (o : Output) (e : option string) : Response :=
  {| ok := true; json := Fulfilled (JsonObject (prediction_body st o e)) |}.

(** A request answered 200 with such a body. *)
Definition job (st : string) (o : Output) (e : option string) : Settled Response :=
  Fulfilled (prediction_response st o e).

(** The body [{"error": e}]. *)
Definition error_body (e : option string) : Json :=
  {| j_id := None; j_status := None; j_output := NoOutput; j_error := e |}.

(** The network is down: every request is rejected. *)
Definition unreachable : Env :=
  {| creation := Rejected (JsError "Failed to fetch");
     status_reply := fun _ => Rejected (JsError "Failed to fetch");
     latency := fun _ => 0 |}.

(** The creation request is answered with an HTTP error whose body is
    [{"error": ""}]. *)
Definition refused_with_empty_error : Env :=
  {| creation := Fulfilled {| ok := false;
                              json := Fulfilled (JsonObject (error_body (Some ""))) |};
     status_reply := fun _ => Rejected (JsError "Failed to fetch");
     latency := fun _ => 0 |}.

(** The creation request is answered with an HTTP error whose body is not
    JSON (an HTML error page, say). *)
Definition refused_with_html : Env :=
  {| creation := Fulfilled {| ok := false;
                              json := Rejected (JsError "Unexpected token < in JSON at position 0") |};
     status_reply := fun _ => Rejected (JsError "Failed to fetch");
     latency := fun _ => 0 |}.

(** The creation request is answered with an HTTP error whose body is
    [null]. *)
Definition refused_with_null : Env :=
  {| creation := Fulfilled {| ok := false; json := Fulfilled JsonNull |};
     status_reply := fun _ => Rejected (JsError "Failed to fetch");
     latency := fun _ => 0 |}.

(** The creation response itself reports the job as failed, with the
    service's error message. *)
Definition failed_at_creation : Env :=
  {| creation := job "failed" NoOutput (Some "oom");
     status_reply := fun _ => job "failed" NoOutput (Some "oom");
     latency := fun _ => 0 |}.

(** The job fails later: the second status response reports it. *)
Definition failed_at_second_poll : Env :=
  {| creation := job "starting" NoOutput None;
     status_reply := fun k => match k with
                              | O => job "processing" NoOutput None
                              | _ => job "failed" NoOutput (Some "oom")
                              end;
     latency := fun _ => 0 |}.

(** The job is created, and the status requests are answered "starting",
    "processing", then "succeeded" with a single output URL. *)
Definition succeeding : Env :=
  {| creation := job "starting" NoOutput None;
     status_reply := fun k => match k with
                              | 0%nat => job "starting" NoOutput None
                              | 1%nat => job "processing" NoOutput None
                              | _ => job "succeeded" (OneUrl "https://x/out.png") None
                              end;
     latency := fun _ => 20 |}.

(** The job is created and stays in "processing" for ever. *)
Definition stuck : Env :=
  {| creation := job "starting" NoOutput None;
     status_reply := fun _ => job "processing" NoOutput None;
     latency := fun _ => 20 |}.

(** The job is created, and the first status response reports it as
    succeeded, with two output URLs. *)
Definition succeeds_at_once : Env :=
  {| creation := job "starting" NoOutput None;
     status_reply := fun _ =>
       job "succeeded" (Urls ["https://x/a.png"; "https://x/b.png"]) None;
     latency := fun _ => 0 |}.

(** * Part II.  Facts *)

(** ** The interpreter *)

Lemma observe_bind_cases {A B} (t : itree browserE A) (k : A -> itree browserE B) :
  observe (ITree.bind t k)
  = match observe t with
    | RetF r => observe (k r)
    | TauF t' => TauF (ITree.bind t' k)
    | VisF e h => VisF e (fun x => ITree.bind (h x) k)
    end.
Proof. rewrite observe_bind. destruct (observe t); reflexivity. Qed.

Section ExecLemmas.
Variable env : Env.

Lemma exec_as_exec_k {R} fuel (t : itree browserE R) w :
  exec env fuel t w = exec_k env fuel t w (fun _ r w' => (w', Some r)).
Proof.
  revert t w. induction fuel as [|n IH]; intros t w; simpl;
    destruct (observe t) as [r|t'|X e k]; try reflexivity.
  - apply IH.
  - destruct (handle env e w) as [x w']. apply IH.
Qed.

Lemma exec_k_observe {R S} fuel (t u : itree browserE R) w
    (K : nat -> R -> World -> World * option S) :
  observe t = observe u -> exec_k env fuel t w K = exec_k env fuel u w K.
Proof. intros E. destruct fuel; simpl; rewrite E; reflexivity. Qed.

Lemma exec_k_ret {R S} fuel (r : R) w (K : nat -> R -> World -> World * option S) :
  exec_k env fuel (Ret r) w K = K fuel r w.
Proof. destruct fuel; reflexivity. Qed.

Lemma exec_k_tau {R S} fuel (t : itree browserE R) w
    (K : nat -> R -> World -> World * option S) :
  exec_k env (Datatypes.S fuel) (Tau t) w K = exec_k env fuel t w K.
Proof. reflexivity. Qed.

Lemma exec_k_call {S} fuel (c : Call) w (K : nat -> Answer c -> World -> World * option S) :
  exec_k env (Datatypes.S fuel) (call c) w K = K fuel (answer env w c) (perform env w c).
Proof. simpl. apply exec_k_ret. Qed.

Lemma exec_k_unfold {R S} fuel (t : itree browserE R) w
    (K : nat -> R -> World -> World * option S) :
  exec_k env fuel t w K
  = match observe t with
    | RetF r => K fuel r w
    | TauF t' =>
        match fuel with
        | O => (w, None)
        | Datatypes.S n => exec_k env n t' w K
        end
    | VisF e k =>
        match fuel with
        | O => (w, None)
        | Datatypes.S n => let (x, w') := handle env e w in exec_k env n (k x) w' K
        end
    end.
Proof. destruct fuel; reflexivity. Qed.

Lemma exec_k_bind {A B S} fuel (t : itree browserE A) (k : A -> itree browserE B) w
    (K : nat -> B -> World -> World * option S) :
  exec_k env fuel (ITree.bind t k) w K
  = exec_k env fuel t w (fun n a w' => exec_k env n (k a) w' K).
Proof.
  revert t w. induction fuel as [|n IH]; intros t w;
    rewrite (exec_k_unfold _ (ITree.bind t k)), (exec_k_unfold _ t), observe_bind_cases;
    destruct (observe t) as [r|t'|X e h];
    try (symmetry; apply exec_k_unfold); try reflexivity.
  - apply IH.
  - destruct (handle env e w) as [x w']. apply IH.
Qed.

Lemma exec_k_ext {R S} fuel (t : itree browserE R) w
    (K K' : nat -> R -> World -> World * option S) :
  (forall n r w', K n r w' = K' n r w') ->
  exec_k env fuel t w K = exec_k env fuel t w K'.
Proof.
  intros HK. revert t w. induction fuel as [|n IH]; intros t w;
    rewrite (exec_k_unfold _ t w K), (exec_k_unfold _ t w K');
    destruct (observe t) as [r|t'|X e h]; auto.
  destruct (handle env e w) as [x w']. apply IH.
Qed.

Lemma exec_k_iter {I R S} fuel (step : I -> itree browserE (I + R)) (i : I) w
    (K : nat -> R -> World -> World * option S) :
  exec_k env fuel (ITree.iter step i) w K
  = exec_k env fuel (step i) w (fun n lr w' =>
      match lr with
      | inl j => exec_k env n (Tau (ITree.iter step j)) w' K
      | inr r => K n r w'
      end).
Proof.
  rewrite (exec_k_observe fuel (ITree.iter step i)
             (ITree.bind (step i) (fun lr =>
                match lr with
                | inl j => Tau (ITree.iter step j)
                | inr r => Ret r
                end))) by reflexivity.
  rewrite exec_k_bind. apply exec_k_ext.
  intros n [j|r] w'; [reflexivity | apply exec_k_ret].
Qed.

(** The same equations for the combinators [handleProcess] is written
    with. *)

Lemma exec_k_bindJs {A B S} fuel (m : Js A) (k : A -> Js B) w
    (K : nat -> Settled B -> World -> World * option S) :
  exec_k env fuel (bindJs m k) w K
  = exec_k env fuel m w (fun n r w' =>
      match r with
      | Fulfilled a => exec_k env n (k a) w' K
      | Rejected t => K n (Rejected t) w'
      end).
Proof.
  unfold bindJs. rewrite exec_k_bind. apply exec_k_ext.
  intros n [a|t] w'; [reflexivity | apply exec_k_ret].
Qed.

Lemma exec_k_try_catch {A S} fuel (body : Js A) (handler : Thrown -> Js A) w
    (K : nat -> Settled A -> World -> World * option S) :
  exec_k env fuel (try_catch body handler) w K
  = exec_k env fuel body w (fun n r w' =>
      match r with
      | Fulfilled a => K n (Fulfilled a) w'
      | Rejected t => exec_k env n (handler t) w' K
      end).
Proof.
  unfold try_catch. rewrite exec_k_bind. apply exec_k_ext.
  intros n [a|t] w'; [apply exec_k_ret | reflexivity].
Qed.

Lemma exec_k_return {A S} fuel (a : A) w
    (K : nat -> Settled A -> World -> World * option S) :
  exec_k env fuel (ret a) w K = K fuel (Fulfilled a) w.
Proof. apply exec_k_ret. Qed.

Lemma exec_k_throw {A S} fuel (t : Thrown) w
    (K : nat -> Settled A -> World -> World * option S) :
  exec_k env fuel (throw t) w K = K fuel (Rejected t) w.
Proof. apply exec_k_ret. Qed.

Lemma exec_k_act {S} fuel (c : Call) w
    (K : nat -> Settled unit -> World -> World * option S) :
  exec_k env (Datatypes.S fuel) (act c) w K = K fuel (Fulfilled tt) (perform env w c).
Proof. unfold act. rewrite exec_k_bind, exec_k_call. apply exec_k_return. Qed.

Lemma exec_k_await_fetch {S} fuel url init w
    (K : nat -> Settled Response -> World -> World * option S) :
  exec_k env (Datatypes.S fuel) (await_fetch url init) w K
  = K fuel (answer env w (fetch url init)) (perform env w (fetch url init)).
Proof. apply (exec_k_call fuel (fetch url init)). Qed.

Lemma exec_k_await_json {S} fuel r w
    (K : nat -> Settled Body -> World -> World * option S) :
  exec_k env (Datatypes.S fuel) (await_json r) w K
  = K fuel (json r) (perform env w (response_json r)).
Proof. apply (exec_k_call fuel (response_json r)). Qed.

Lemma exec_k_nonnull {S} fuel (fields : Json) property w
    (K : nat -> Settled Json -> World -> World * option S) :
  exec_k env fuel (nonnull (JsonObject fields) property) w K = K fuel (Fulfilled fields) w.
Proof. apply exec_k_ret. Qed.

Lemma exec_k_nonnull_null {S} fuel property w
    (K : nat -> Settled Json -> World -> World * option S) :
  exec_k env fuel (nonnull JsonNull property) w K = K fuel (Rejected (null_read property)) w.
Proof. apply exec_k_ret. Qed.

(** With no fuel left a call is not made. *)
Lemma exec_k_act_0 {S} (c : Call) w
    (K : nat -> Settled unit -> World -> World * option S) :
  exec_k env 0 (act c) w K = (w, None).
Proof. reflexivity. Qed.

Lemma exec_k_await_fetch_0 {S} url init w
    (K : nat -> Settled Response -> World -> World * option S) :
  exec_k env 0 (await_fetch url init) w K = (w, None).
Proof. reflexivity. Qed.

Lemma exec_k_await_json_0 {S} r w
    (K : nat -> Settled Body -> World -> World * option S) :
  exec_k env 0 (await_json r) w K = (w, None).
Proof. reflexivity. Qed.

Lemma exec_k_tau_0 {R S} (t : itree browserE R) w
    (K : nat -> R -> World -> World * option S) :
  exec_k env 0 (Tau t) w K = (w, None).
Proof. reflexivity. Qed.

Lemma exec_k_while {S} fuel (guard : unit -> bool) (body : Js LoopExit) w
    (K : nat -> Settled unit -> World -> World * option S) :
  exec_k env fuel (while_ guard body) w K
  = if guard tt
    then exec_k env fuel body w (fun n r w' =>
           match r with
           | Fulfilled Continue => exec_k env n (Tau (while_ guard body)) w' K
           | Fulfilled Break => K n (Fulfilled tt) w'
           | Rejected t => K n (Rejected t) w'
           end)
    else K fuel (Fulfilled tt) w.
Proof.
  unfold while_ at 1. rewrite exec_k_iter.
  rewrite (exec_k_ext fuel (while_turn guard body tt) w _
             (fun n lr w' =>
                match lr with
                | inl _ => exec_k env n (Tau (while_ guard body)) w' K
                | inr r => K n r w'
                end))
    by (intros n [[]|r] w'; reflexivity).
  unfold while_turn. destruct (guard tt).
  - rewrite exec_k_bind. apply (exec_k_ext (R := Settled LoopExit)).
    intros n [[|]|t] w'; rewrite exec_k_ret; reflexivity.
  - rewrite exec_k_ret. reflexivity.
Qed.

End ExecLemmas.

(** Running a tree symbolically, one call at a time. *)

Ltac run_step :=
  first
    [ rewrite exec_k_bindJs
    | rewrite exec_k_try_catch
    | rewrite exec_k_act
    | rewrite exec_k_await_fetch
    | rewrite exec_k_await_json
    | rewrite exec_k_return
    | rewrite exec_k_throw
    | rewrite exec_k_nonnull
    | rewrite exec_k_nonnull_null
    | rewrite exec_k_tau
    | rewrite exec_k_act_0
    | rewrite exec_k_await_fetch_0
    | rewrite exec_k_await_json_0
    | rewrite exec_k_tau_0 ].

Ltac run := repeat (run_step; cbv beta iota).

(** ** General facts about runs *)

Section RunFacts.
Variable env : Env.

Lemma perform_past w c :
  past (perform env w c)
  = {| at_ms := now w; what := c; got := answer env w c |} :: past w.
Proof. reflexivity. Qed.

(** The journal only grows, at its newest end. *)
Lemma exec_grows {R} fuel (t : itree browserE R) w :
  exists l, past (fst (exec env fuel t w)) = (l ++ past w)%list.
Proof.
  revert t w. induction fuel as [|f IH]; intros t w; simpl.
  - exists []. destruct (observe t); reflexivity.
  - destruct (observe t) as [r0|t'|X e k].
    + exists []. reflexivity.
    + apply IH.
    + destruct e as [c]. simpl.
      destruct (IH (k (answer env w c)) (perform env w c)) as [l E].
      exists (l ++ [{| at_ms := now w; what := c; got := answer env w c |}])%list.
      rewrite E, perform_past, <- app_assoc. reflexivity.
Qed.

(** A run with less fuel is a prefix of the run with more. *)
Lemma exec_prefix {R} fuel n (t : itree browserE R) w :
  exists l, past (fst (exec env (fuel + n) t w)) = (l ++ past (fst (exec env fuel t w)))%list.
Proof.
  revert t w. induction fuel as [|f IH]; intros t w.
  - replace (past (fst (exec env 0 t w))) with (past w)
      by (simpl; destruct (observe t); reflexivity).
    apply exec_grows.
  - simpl. destruct (observe t) as [r0|t'|X e k].
    + exists []. reflexivity.
    + apply IH.
    + destruct (handle env e w) as [x w1]. apply IH.
Qed.

Lemma polls_app l w w' :
  past w' = (l ++ past w)%list ->
  polls w' = (length (filter (fun e => is_poll (what e)) l) + polls w)%nat.
Proof. intros E. unfold polls. rewrite E, filter_app, length_app. reflexivity. Qed.

Lemma polls_monotone {R} fuel fuel' (t : itree browserE R) w :
  (fuel <= fuel')%nat ->
  (polls (fst (exec env fuel t w)) <= polls (fst (exec env fuel' t w)))%nat.
Proof.
  intros L. replace fuel' with (fuel + (fuel' - fuel))%nat by lia.
  destruct (exec_prefix fuel (fuel' - fuel) t w) as [l E].
  rewrite (polls_app l _ _ E). lia.
Qed.

(** What every call preserves holds along every run. *)
Lemma exec_invariant (I : World -> Prop) :
  (forall w c, I w -> I (perform env w c)) ->
  forall R fuel (t : itree browserE R) w, I w -> I (fst (exec env fuel t w)).
Proof.
  intros Step R fuel. induction fuel as [|f IH]; intros t w Hw; simpl.
  - destruct (observe t); exact Hw.
  - destruct (observe t) as [r|t'|X e k]; auto.
    destruct e as [c]. simpl. apply IH, Step, Hw.
Qed.

End RunFacts.

(** ** Views of the journal, call by call *)

Lemma keep_app {A B} (f : A -> option B) l1 l2 :
  keep f (l1 ++ l2)%list = (keep f l1 ++ keep f l2)%list.
Proof.
  induction l1 as [|a l1 IH]; simpl; [reflexivity|].
  destruct (f a); simpl; rewrite IH; reflexivity.
Qed.

Section Views.
Variable env : Env.

Lemma calls_perform w c : calls (perform env w c) = (calls w ++ [c])%list.
Proof. reflexivity. Qed.

Lemma polls_calls w : polls w = length (filter is_poll (calls w)).
Proof.
  unfold polls, calls.
  rewrite <- (length_rev (filter _ _)), <- filter_rev,
          <- (length_map what), <- filter_map_swap, map_rev.
  reflexivity.
Qed.

Lemma polls_perform w c :
  polls (perform env w c) = (polls w + if is_poll c then 1 else 0)%nat.
Proof.
  rewrite !polls_calls, calls_perform, filter_app, length_app. simpl.
  destruct (is_poll c); reflexivity.
Qed.

Lemma transitions_perform w c :
  transitions (perform env w c)
  = (transitions w ++ match c with setStatus s => [s] | _ => [] end)%list.
Proof.
  unfold transitions. rewrite calls_perform, keep_app. destruct c; reflexivity.
Qed.

Lemma toasts_perform w c :
  toasts (perform env w c)
  = (toasts w ++ match c with toast_error msg => [msg] | _ => [] end)%list.
Proof.
  unfold toasts. rewrite calls_perform, keep_app. destruct c; reflexivity.
Qed.

Lemma dispatched_perform w c :
  dispatched (perform env w c)
  = (dispatched w ++ match c with
                     | dispatchEvent type outputUrl => [(type, outputUrl)]
                     | _ => []
                     end)%list.
Proof.
  unfold dispatched. rewrite calls_perform, keep_app. destruct c; reflexivity.
Qed.

Lemma network_perform w c :
  network (perform env w c) = (network w ++ if is_fetch c then [c] else [])%list.
Proof.
  unfold network. rewrite calls_perform, filter_app. simpl.
  destruct (is_fetch c); reflexivity.
Qed.

Lemma polled_perform w c :
  polled (perform env w c)
  = (polled w ++ if is_poll c then [status_reply env (polls w)] else [])%list.
Proof.
  unfold polled, timeline. simpl. rewrite keep_app. simpl.
  destruct c as [| | | |url [init|]| | |]; simpl; rewrite ?app_nil_r; reflexivity.
Qed.

(** The status responses received are the scripted ones, in order. *)
Lemma polled_scripted {R} fuel (t : itree browserE R) s m t0 :
  let w := fst (exec env fuel t (boot s m t0)) in
  polled w = map (status_reply env) (seq 0 (polls w)).
Proof.
  apply (exec_invariant env (fun w => polled w = map (status_reply env) (seq 0 (polls w)))).
  - intros w c H. rewrite polled_perform, polls_perform, H.
    destruct (is_poll c).
    + rewrite Nat.add_1_r, seq_S, map_app. reflexivity.
    + rewrite Nat.add_0_r, app_nil_r. reflexivity.
  - reflexivity.
Qed.

End Views.

Lemma before_rev journal e1 e2 :
  before (rev journal) e1 e2 ->
  exists a b c, journal = (a ++ e2 :: b ++ e1 :: c)%list.
Proof.
  intros (l1 & l2 & l3 & E).
  exists (rev l3), (rev l2), (rev l1).
  rewrite <- (rev_involutive journal), E.
  rewrite rev_app_distr. simpl. rewrite rev_app_distr. simpl.
  rewrite <- !app_assoc. reflexivity.
Qed.

(** ** The guard clauses and the way to the loop *)

Lemma handleProcess_ready p :
  ready p = true -> handleProcess p = try_catch (submit_and_poll p) on_error.
Proof.
  unfold ready, handleProcess. intros H.
  apply andb_prop in H as [H Hv]. apply andb_prop in H as [Hu Hf].
  rewrite Hu, Hf, Hv. reflexivity.
Qed.

Lemma handleProcess_no_user p :
  user p = None -> handleProcess p = act (toast_error "Please log in to continue").
Proof. unfold handleProcess. intros ->. reflexivity. Qed.

Lemma handleProcess_no_file p :
  present (user p) = true ->
  present (selectedFile p) && truthy (previewUrl p) = false ->
  handleProcess p = ret tt.
Proof.
  unfold handleProcess. intros -> H. simpl.
  destruct (present (selectedFile p)), (truthy (previewUrl p)); try discriminate H; reflexivity.
Qed.

Lemma poll_guard_terminal prediction :
  poll_guard prediction tt = negb (terminal (j_status prediction)).
Proof.
  unfold poll_guard, terminal, equals.
  destruct (differs (j_status prediction) "succeeded"),
           (differs (j_status prediction) "failed"); reflexivity.
Qed.

Lemma quiet_inv r :
  quiet r = true ->
  exists resp body,
    r = Fulfilled resp /\ ok resp = true /\ json resp = Fulfilled (JsonObject body) /\
    equals (j_status body) "failed" = false /\
    equals (j_status body) "succeeded" = false.
Proof.
  destruct r as [resp|t]; simpl; [|discriminate].
  destruct (ok resp) eqn:Hok; simpl; [|discriminate].
  destruct (json resp) as [[|body]|t] eqn:Hj; try discriminate.
  unfold terminal. intros H. apply negb_true_iff, orb_false_iff in H as [H1 H2].
  exists resp, body. repeat split; assumption.
Qed.

Lemma status_response_inv r body :
  status_response r = Some body ->
  exists resp,
    r = Fulfilled resp /\ ok resp = true /\ json resp = Fulfilled (JsonObject body).
Proof.
  destruct r as [resp|t]; simpl; [|discriminate].
  destruct (ok resp) eqn:Hok; [|discriminate].
  destruct (json resp) as [[|b]|t] eqn:Hj; try discriminate.
  intros [= ->]. exists resp. auto.
Qed.

Lemma status_response_quiet r body :
  status_response r = Some body -> terminal (j_status body) = false -> quiet r = true.
Proof.
  intros H T. apply status_response_inv in H as (resp & -> & Hok & Hj).
  simpl. rewrite Hok, Hj, T. reflexivity.
Qed.

(** The first five calls of an invocation whose creation request is
    answered with an [ok] response and a parsed body: they end at the head of
    the poll loop. *)
Lemma reach_loop env p s m t0 r prediction :
  creation env = Fulfilled r -> ok r = true -> json r = Fulfilled (JsonObject prediction) ->
  exists w,
    (forall S n (K : nat -> Settled unit -> World -> World * option S),
       exec_k env (5 + n) (submit_and_poll p) (boot s m t0) K
       = exec_k env n (while_ (poll_guard prediction) (poll_turn prediction)) w K)
    /\ calls w = calls_skipping_the_loop p r
    /\ status w = Processing
    /\ statusMessage w = "Starting image processing...".
Proof.
  intros Hc Hok Hj. eexists. split.
  - intros S n K. unfold submit_and_poll.
    change (5 + n)%nat with (Datatypes.S (Datatypes.S (Datatypes.S (Datatypes.S (Datatypes.S n))))).
    run. cbn [answer]. rewrite Hc. run. rewrite Hok. cbn [negb]. run. rewrite Hj. run.
    reflexivity.
  - repeat split.
Qed.

Lemma short_of_loop env p s m t0 r prediction {S} fuel
    (K : nat -> Settled unit -> World -> World * option S) :
  creation env = Fulfilled r -> ok r = true -> json r = Fulfilled (JsonObject prediction) ->
  (fuel < 5)%nat ->
  snd (exec_k env fuel (submit_and_poll p) (boot s m t0) K) = None.
Proof.
  intros Hc Hok Hj Short. unfold submit_and_poll.
  do 5 (destruct fuel as [|fuel];
        [run; cbn [answer]; rewrite ?Hc; run; rewrite ?Hok; cbn [negb]; run;
         rewrite ?Hj; run; reflexivity|]).
  lia.
Qed.

Lemma terminal_creation_run env p s m t0 r prediction n :
  ready p = true ->
  creation env = Fulfilled r -> ok r = true -> json r = Fulfilled (JsonObject prediction) ->
  terminal (j_status prediction) = true ->
  exists w,
    exec env (5 + n) (handleProcess p) (boot s m t0) = (w, Some (Fulfilled tt))
    /\ calls w = calls_skipping_the_loop p r
    /\ status w = Processing
    /\ statusMessage w = "Starting image processing...".
Proof.
  intros Hp Hc Hok Hj Ht.
  rewrite (handleProcess_ready p Hp), exec_as_exec_k. unfold submit_and_poll.
  change (5 + n)%nat with (S (S (S (S (S n))))).
  run. cbn [answer]. rewrite Hc. run. rewrite Hok. cbn [negb]. run. rewrite Hj. run.
  rewrite exec_k_while, poll_guard_terminal, Ht. cbn [negb].
  eexists. repeat split.
Qed.

Lemma terminal_creation_run_views env p s m t0 r prediction n :
  ready p = true ->
  creation env = Fulfilled r -> ok r = true -> json r = Fulfilled (JsonObject prediction) ->
  terminal (j_status prediction) = true ->
  exists w,
    exec env (5 + n) (handleProcess p) (boot s m t0) = (w, Some (Fulfilled tt))
    /\ calls w = calls_skipping_the_loop p r
    /\ polls w = 0%nat
    /\ status w = Processing
    /\ statusMessage w = "Starting image processing...".
Proof.
  intros Hp Hc Hok Hj Ht.
  destruct (terminal_creation_run env p s m t0 r prediction n Hp Hc Hok Hj Ht)
    as (w & E & Hcalls & Hs & Hm).
  exists w. repeat split; trivial.
  unfold polls. rewrite <- (length_rev (filter _ _)), <- filter_rev.
  unfold calls in Hcalls. rewrite <- (length_map what), <- filter_map_swap.
  rewrite map_rev, Hcalls. reflexivity.
Qed.

(** No prefix of such a run contains a status request. *)
Lemma terminal_creation_never_polls env p s m t0 r prediction :
  ready p = true ->
  creation env = Fulfilled r -> ok r = true -> json r = Fulfilled (JsonObject prediction) ->
  terminal (j_status prediction) = true ->
  forall fuel, polls (fst (exec env fuel (handleProcess p) (boot s m t0))) = 0%nat.
Proof.
  intros Hp Hc Hok Hj Ht fuel.
  destruct (terminal_creation_run_views env p s m t0 r prediction fuel Hp Hc Hok Hj Ht)
    as (w & E & _ & Hpolls & _).
  pose proof (polls_monotone env fuel (5 + fuel) (handleProcess p) (boot s m t0)
                ltac:(lia)) as L.
  rewrite E in L. simpl in L. lia.
Qed.

(** ** Turns of the poll loop *)

Section PollLoop.
Variable env : Env.
Variable prediction : Json.
Hypothesis in_flight : terminal (j_status prediction) = false.

Let loop : Js unit := while_ (poll_guard prediction) (poll_turn prediction).

Lemma guard_holds : poll_guard prediction tt = true.
Proof. rewrite poll_guard_terminal, in_flight. reflexivity. Qed.

(** A quiet answer costs five steps (four calls and the jump back) and
    brings the loop back to its head, one status fetch later. *)
Lemma quiet_turn w :
  quiet (status_reply env (polls w)) = true ->
  exists w',
    (forall S n (K : nat -> Settled unit -> World -> World * option S),
       exec_k env (5 + n) loop w K = exec_k env n loop w' K)
    /\ polls w' = Datatypes.S (polls w)
    /\ transitions w' = transitions w
    /\ toasts w' = toasts w
    /\ dispatched w' = dispatched w
    /\ status w' = status w.
Proof.
  intros Q. apply quiet_inv in Q as (resp & body & Hr & Hok & Hj & Hf & Hs).
  eexists. split.
  - intros S n K.
    unfold loop. rewrite exec_k_while, guard_holds. unfold poll_turn at 1, sleep.
    change (5 + n)%nat with (Datatypes.S (Datatypes.S (Datatypes.S (Datatypes.S (Datatypes.S n))))).
    run. cbn [answer]. rewrite polls_perform. cbn [is_poll]. rewrite Nat.add_0_r, Hr.
    run. rewrite Hok. cbn [negb]. run. rewrite Hj. run. rewrite Hf. run. rewrite Hs. run.
    reflexivity.
  - rewrite !polls_perform, !transitions_perform, !toasts_perform, !dispatched_perform.
    cbn [is_poll]. rewrite !app_nil_r. repeat split; trivial. lia.
Qed.

Lemma quiet_turns k w :
  (forall j, (j < k)%nat -> quiet (status_reply env (polls w + j)) = true) ->
  exists w',
    (forall S n (K : nat -> Settled unit -> World -> World * option S),
       exec_k env (5 * k + n) loop w K = exec_k env n loop w' K)
    /\ polls w' = (polls w + k)%nat
    /\ transitions w' = transitions w
    /\ toasts w' = toasts w
    /\ dispatched w' = dispatched w
    /\ status w' = status w.
Proof.
  revert w. induction k as [|k IH]; intros w Q.
  - exists w. rewrite Nat.add_0_r. repeat split; trivial.
  - destruct (quiet_turn w) as (w1 & E1 & P1 & T1 & O1 & D1 & S1).
    { rewrite <- (Nat.add_0_r (polls w)). apply Q. lia. }
    destruct (IH w1) as (w2 & E2 & P2 & T2 & O2 & D2 & S2).
    { intros j Hj. rewrite P1. replace (Datatypes.S (polls w) + j)%nat
        with (polls w + Datatypes.S j)%nat by lia. apply Q. lia. }
    exists w2. split.
    + intros S n K. replace (5 * Datatypes.S k + n)%nat with (5 + (5 * k + n))%nat by lia.
      rewrite E1, E2. reflexivity.
    + repeat split; try congruence. lia.
Qed.

(** A "succeeded" answer: seven calls, the last of them the
    'processComplete' event, and the loop is left through [break]. *)
Lemma succeeded_turn w body :
  status_response (status_reply env (polls w)) = Some body ->
  equals (j_status body) "succeeded" = true ->
  exists w',
    (forall S n (K : nat -> Settled unit -> World -> World * option S),
       exec_k env (7 + n) loop w K = K n (Fulfilled tt) w')
    /\ polls w' = Datatypes.S (polls w)
    /\ transitions w' = (transitions w ++ [Complete])%list
    /\ dispatched w'
       = (dispatched w ++ [("processComplete", first_or_self (j_output body))])%list
    /\ toasts w' = toasts w
    /\ status w' = Complete
    /\ statusMessage w' = "Processing complete!".
Proof.
  intros Hr Hs. apply status_response_inv in Hr as (resp & Hr & Hok & Hj).
  assert (equals (j_status body) "failed" = false) as Hf.
  { unfold equals, differs in *. destruct (j_status body) as [st|]; [|discriminate].
    rewrite negb_involutive in *. apply String.eqb_eq in Hs as ->. reflexivity. }
  eexists. split.
  - intros S n K.
    unfold loop. rewrite exec_k_while, guard_holds.
    unfold poll_turn, sleep, onProcessComplete.
    change (7 + n)%nat with (Datatypes.S (Datatypes.S (Datatypes.S (Datatypes.S
      (Datatypes.S (Datatypes.S (Datatypes.S n))))))).
    run. cbn [answer]. rewrite polls_perform. cbn [is_poll]. rewrite Nat.add_0_r, Hr.
    run. rewrite Hok. cbn [negb]. run. rewrite Hj. run. rewrite Hf. run. rewrite Hs. run.
    reflexivity.
  - rewrite !polls_perform, !transitions_perform, !toasts_perform, !dispatched_perform.
    cbn [is_poll]. rewrite !app_nil_r. repeat split; trivial. lia.
Qed.

(** A turn whose status request fails: at most four calls, and the
    exception leaves the loop. *)
Lemma failing_turn w t :
  poll_throws (status_reply env (polls w)) t ->
  exists c w',
    (forall S n (K : nat -> Settled unit -> World -> World * option S),
       exec_k env (c + n) (while_ (poll_guard prediction) (poll_turn prediction)) w K
       = K n (Rejected t) w')
    /\ transitions w' = transitions w
    /\ toasts w' = toasts w
    /\ dispatched w' = dispatched w.
Proof.
  intros H.
  inversion H as [t' Hr | resp Hok Hr | resp t' Hok Hj Hr | resp Hok Hj Hr
                  | resp body Hok Hj Hf Hr]; subst.
  - exists 2%nat. eexists. split.
    + intros S n K.
      rewrite exec_k_while, guard_holds. unfold poll_turn, sleep.
      change (2 + n)%nat with (Datatypes.S (Datatypes.S n)). run. cbn [answer].
      rewrite polls_perform. cbn [is_poll]. rewrite Nat.add_0_r, <- Hr. run. reflexivity.
    + rewrite !transitions_perform, !toasts_perform, !dispatched_perform, ?app_nil_r.
      repeat split.
  - exists 2%nat. eexists. split.
    + intros S n K.
      rewrite exec_k_while, guard_holds. unfold poll_turn, sleep.
      change (2 + n)%nat with (Datatypes.S (Datatypes.S n)). run. cbn [answer].
      rewrite polls_perform. cbn [is_poll]. rewrite Nat.add_0_r, <- Hr. run.
      rewrite Hok. cbn [negb]. run. reflexivity.
    + rewrite !transitions_perform, !toasts_perform, !dispatched_perform, ?app_nil_r.
      repeat split.
  - exists 3%nat. eexists. split.
    + intros S n K.
      rewrite exec_k_while, guard_holds. unfold poll_turn, sleep.
      change (3 + n)%nat with (Datatypes.S (Datatypes.S (Datatypes.S n))). run. cbn [answer].
      rewrite polls_perform. cbn [is_poll]. rewrite Nat.add_0_r, <- Hr. run.
      rewrite Hok. cbn [negb]. run. rewrite Hj. run. reflexivity.
    + rewrite !transitions_perform, !toasts_perform, !dispatched_perform, ?app_nil_r.
      repeat split.
  - exists 3%nat. eexists. split.
    + intros S n K.
      rewrite exec_k_while, guard_holds. unfold poll_turn, sleep.
      change (3 + n)%nat with (Datatypes.S (Datatypes.S (Datatypes.S n))). run. cbn [answer].
      rewrite polls_perform. cbn [is_poll]. rewrite Nat.add_0_r, <- Hr. run.
      rewrite Hok. cbn [negb]. run. rewrite Hj. run. reflexivity.
    + rewrite !transitions_perform, !toasts_perform, !dispatched_perform, ?app_nil_r.
      repeat split.
  - exists 4%nat. eexists. split.
    + intros S n K.
      rewrite exec_k_while, guard_holds. unfold poll_turn, sleep.
      change (4 + n)%nat with (Datatypes.S (Datatypes.S (Datatypes.S (Datatypes.S n)))).
      run. cbn [answer].
      rewrite polls_perform. cbn [is_poll]. rewrite Nat.add_0_r, <- Hr. run.
      rewrite Hok. cbn [negb]. run. rewrite Hj. run. rewrite Hf. run. reflexivity.
    + rewrite !transitions_perform, !toasts_perform, !dispatched_perform, ?app_nil_r.
      repeat split.
Qed.

End PollLoop.

(** ** A job that never finishes *)

Section NeverTerminal.
Variable env : Env.
Variable prediction : Json.
Hypothesis in_flight : terminal (j_status prediction) = false.
Hypothesis always_quiet : forall k, quiet (status_reply env k) = true.

Lemma loop_never_returns {S} fuel w (K : nat -> Settled unit -> World -> World * option S) :
  snd (exec_k env fuel (while_ (poll_guard prediction) (poll_turn prediction)) w K) = None.
Proof.
  revert w. induction fuel as [fuel IH] using lt_wf_ind. intros w.
  destruct (Nat.lt_ge_cases fuel 5) as [Short|Long].
  - destruct (quiet_inv _ (always_quiet (polls w))) as (resp & body & Hr & Hok & Hj & Hf & Hs).
    rewrite exec_k_while, (guard_holds prediction in_flight). unfold poll_turn, sleep.
    do 5 (destruct fuel as [|fuel]; [run; cbn [answer]; rewrite ?polls_perform;
            cbn [is_poll]; rewrite ?Nat.add_0_r, ?Hr; run; rewrite ?Hok; cbn [negb]; run;
            rewrite ?Hj; run; rewrite ?Hf; run; rewrite ?Hs; run; reflexivity|]).
    lia.
  - destruct (quiet_turn env prediction in_flight w (always_quiet _)) as (w' & E & _).
    replace fuel with (5 + (fuel - 5))%nat by lia. rewrite E. apply IH. lia.
Qed.

End NeverTerminal.

(** ** Failed runs *)

Section Failing.
Variable env : Env.

(** The [catch] block: four calls. *)
Lemma on_error_run n w error :
  exists w',
    exec_k env (4 + n) (on_error error) w (fun _ r w1 => (w1, Some r))
    = (w', Some (Fulfilled tt))
    /\ status w' = Error
    /\ statusMessage w' = message_of error
    /\ transitions w' = (transitions w ++ [Error])%list
    /\ toasts w' = (toasts w ++ ["Processing failed. Please try again."])%list
    /\ network w' = network w
    /\ dispatched w' = dispatched w
    /\ polls w' = polls w.
Proof.
  unfold on_error.
  change (4 + n)%nat with (S (S (S (S n)))). run.
  eexists. split; [reflexivity|].
  rewrite !polls_perform, !transitions_perform, !toasts_perform, !dispatched_perform,
          !network_perform.
  cbn [is_poll is_fetch]. rewrite ?app_nil_r. repeat split; trivial. lia.
Qed.

Lemma creation_throws_run p s m t0 t :
  creation_throws (creation env) t ->
  exists c w,
    (forall S n (K : nat -> Settled unit -> World -> World * option S),
       exec_k env (c + n) (submit_and_poll p) (boot s m t0) K = K n (Rejected t) w)
    /\ (transitions w = [Uploading] \/ transitions w = [Uploading; Processing])
    /\ toasts w = []
    /\ dispatched w = []
    /\ polls w = 0%nat
    /\ network w = [fetch "/api/replicate" (Some (creation_request p))].
Proof.
  intros H. unfold submit_and_poll.
  inversion H as [t' Hc | resp body Hok Hj Hc | resp Hok Hj Hc | resp Hok Hj Hc
                  | resp t' Hj Hc]; subst.
  - exists 3%nat. eexists. split.
    + intros S n K.
      change (3 + n)%nat with (Datatypes.S (Datatypes.S (Datatypes.S n))).
      run. cbn [answer]. rewrite <- Hc. run. reflexivity.
    + repeat split. left. reflexivity.
  - exists 4%nat. eexists. split.
    + intros S n K.
      change (4 + n)%nat with (Datatypes.S (Datatypes.S (Datatypes.S (Datatypes.S n)))).
      run. cbn [answer]. rewrite <- Hc. run.
      rewrite Hok. cbn [negb]. run. rewrite Hj. run. reflexivity.
    + repeat split. left. reflexivity.
  - exists 4%nat. eexists. split.
    + intros S n K.
      change (4 + n)%nat with (Datatypes.S (Datatypes.S (Datatypes.S (Datatypes.S n)))).
      run. cbn [answer]. rewrite <- Hc. run.
      rewrite Hok. cbn [negb]. run. rewrite Hj. run. reflexivity.
    + repeat split. left. reflexivity.
  - exists 5%nat. eexists. split.
    + intros S n K.
      change (5 + n)%nat
        with (Datatypes.S (Datatypes.S (Datatypes.S (Datatypes.S (Datatypes.S n))))).
      run. cbn [answer]. rewrite <- Hc. run.
      rewrite Hok. cbn [negb]. run. rewrite Hj. run. reflexivity.
    + repeat split. right. reflexivity.
  - exists 4%nat. eexists. split.
    + intros S n K.
      change (4 + n)%nat with (Datatypes.S (Datatypes.S (Datatypes.S (Datatypes.S n)))).
      run. cbn [answer]. rewrite <- Hc. run.
      destruct (ok resp); cbn [negb]; run; rewrite Hj; run; reflexivity.
    + repeat split. left. reflexivity.
Qed.

End Failing.

(** Every failure inside the [try] block ends the same way: the status is
    "error", the message shown is the thrown error's, and the failure toast
    is the only toast. *)
Lemma failure_run env p s m t0 t :
  ready p = true ->
  fails env t ->
  exists c, forall n, exists w,
    exec env (c + n) (handleProcess p) (boot s m t0) = (w, Some (Fulfilled tt))
    /\ status w = Error
    /\ statusMessage w = message_of t
    /\ toasts w = ["Processing failed. Please try again."]
    /\ dispatched w = []
    /\ exists before, transitions w = (Uploading :: before ++ [Error])%list.
Proof.
  intros Hp H. rewrite (handleProcess_ready p Hp).
  destruct H as [t Hc | resp prediction k t Hc Hok Hj Hfl Hq Ht].
  - destruct (creation_throws_run env p s m t0 t Hc) as (c & w1 & Run & T1 & O1 & D1 & _).
    exists (c + 4)%nat. intros n.
    rewrite exec_as_exec_k, exec_k_try_catch.
    replace (c + 4 + n)%nat with (c + (4 + n))%nat by lia. rewrite Run.
    destruct (on_error_run env n w1 t) as (w & -> & St & Msg & T & O & _ & D & _).
    exists w. rewrite T, O, D, O1, D1. repeat split; trivial.
    destruct T1 as [-> | ->]; [exists []|exists [Processing]]; reflexivity.
  - destruct (reach_loop env p s m t0 resp prediction Hc Hok Hj) as (w0 & E0 & Hcalls & _).
    assert (polls w0 = 0%nat) as P0 by (rewrite polls_calls, Hcalls; reflexivity).
    destruct (quiet_turns env prediction Hfl k w0) as (w1 & E1 & P1 & T1 & O1 & D1 & _).
    { intros j Hjk. rewrite P0. apply Hq, Hjk. }
    destruct (failing_turn env prediction Hfl w1 t) as (c & w2 & E2 & T2 & O2 & D2).
    { rewrite P1, P0. exact Ht. }
    exists (5 + (5 * k + (c + 4)))%nat. intros n.
    rewrite exec_as_exec_k, exec_k_try_catch.
    replace (5 + (5 * k + (c + 4)) + n)%nat with (5 + (5 * k + (c + (4 + n))))%nat by lia.
    rewrite E0, E1, E2.
    destruct (on_error_run env n w2 t) as (w & -> & St & Msg & T & O & _ & D & _).
    exists w. rewrite T, O, D, T2, O2, D2, T1, O1, D1. unfold transitions, toasts, dispatched.
    rewrite Hcalls. repeat split; trivial. exists [Processing]. reflexivity.
Qed.

(** ** Monitors: what every run does, whatever the answers *)

Section ObeysFacts.
Variable M : Monitor.
Context {R : Type}.
Variable Post : R -> mstate M -> Prop.

Lemma obeys_mon : monotone2 (obeys_ M Post).
Proof.
  intros q t r r' H LE. unfold obeys_, obeysF in *.
  destruct (observe t) as [x|t'|X e k]; auto.
  destruct e as [c]. destruct H as [Ha Hk]. split; auto.
Qed.

Lemma obeys_unfold q t : obeys M Post q t -> obeysF M Post (obeys M Post) q (observe t).
Proof.
  intros H. punfold H; [|exact obeys_mon]. unfold obeys_, obeysF in *.
  destruct (observe t) as [x|t'|X e k]; auto.
  - pclearbot. exact H.
  - destruct e as [c]. destruct H as [Ha Hk]. split; [exact Ha|].
    intros x. specialize (Hk x). pclearbot. exact Hk.
Qed.

Lemma obeys_fold q t : obeysF M Post (obeys M Post) q (observe t) -> obeys M Post q t.
Proof.
  intros H. pfold. unfold obeys_, obeysF, upaco2 in *.
  destruct (observe t) as [x|t'|X e k]; auto.
  destruct e as [c]. destruct H as [Ha Hk]. split; [exact Ha|].
  intros x. left. apply Hk.
Qed.

Lemma obeys_Ret q r : Post r q -> obeys M Post q (Ret r).
Proof. intros H. apply obeys_fold. exact H. Qed.

End ObeysFacts.

(** *** Rules *)

Section Rules.
Variable M : Monitor.

Lemma obeys_weaken {R} (Post Post' : R -> mstate M -> Prop) :
  (forall r q, Post r q -> Post' r q) ->
  forall q t, obeys M Post q t -> obeys M Post' q t.
Proof.
  intros LE. pcofix CIH. intros q t H.
  apply obeys_unfold in H. pfold. unfold obeys_, obeysF in *.
  destruct (observe t) as [x|t'|X e k]; auto.
  destruct e as [c]. destruct H as [Ha Hk]. split; [exact Ha|].
  intros x. right. apply CIH, Hk.
Qed.

Lemma obeys_call (Post : forall c, Answer c -> mstate M -> Prop) q c :
  allowed M q c = true ->
  (forall x, Post c x (next M q c x)) ->
  obeys M (Post c) q (call c).
Proof.
  intros Ha Hp. apply obeys_fold. simpl. split; [exact Ha|].
  intros x. apply obeys_Ret, Hp.
Qed.

Lemma obeys_bind {A B} (Mid : A -> mstate M -> Prop) (Post : B -> mstate M -> Prop)
    q (t : itree browserE A) (k : A -> itree browserE B) :
  obeys M Mid q t ->
  (forall a q', Mid a q' -> obeys M Post q' (k a)) ->
  obeys M Post q (ITree.bind t k).
Proof.
  intros Ht Hk. revert q t Ht. pcofix CIH. intros q t Ht.
  apply obeys_unfold in Ht. pfold. unfold obeys_. rewrite observe_bind_cases.
  unfold obeysF in *. destruct (observe t) as [a|t'|X e h].
  - specialize (Hk a q Ht). punfold Hk; [|apply obeys_mon].
    eapply obeys_mon; [exact Hk|].
    intros q' t' [H|[]]. left. eapply paco2_mon; [exact H|]. intros ? ? [].
  - right. apply CIH, Ht.
  - destruct e as [c]. destruct Ht as [Ha Hh]. split; [exact Ha|].
    intros x. right. apply CIH, Hh.
Qed.

Lemma obeys_iter {I R} (Inv : I -> mstate M -> Prop) (Post : R -> mstate M -> Prop)
    (step : I -> itree browserE (I + R)) :
  (forall i q, Inv i q ->
     obeys M (fun lr q' => match lr with
                           | inl j => Inv j q'
                           | inr r => Post r q'
                           end) q (step i)) ->
  forall i q, Inv i q -> obeys M Post q (ITree.iter step i).
Proof.
  intros Hstep.
  set (again := fun lr : I + R =>
                  match lr with
                  | inl j => Tau (ITree.iter step j)
                  | inr r => Ret r
                  end).
  set (Mid := fun (lr : I + R) q' => match lr with
                                     | inl j => Inv j q'
                                     | inr r => Post r q'
                                     end).
  assert (forall q v,
             (exists u, obeys M Mid q u /\ observe v = observe (ITree.bind u again)) ->
             obeys M Post q v) as Gen.
  { pcofix CIH. intros q v (u & Hu & Ev).
    apply obeys_unfold in Hu. pfold. unfold obeys_. rewrite Ev, observe_bind_cases.
    unfold obeysF in *. destruct (observe u) as [[j|res]|u'|X e h].
    - simpl. right. apply CIH. exists (step j). split; [apply Hstep, Hu|reflexivity].
    - exact Hu.
    - right. apply CIH. exists u'. split; [exact Hu|reflexivity].
    - destruct e as [c]. destruct Hu as [Ha Hh]. split; [exact Ha|].
      intros x. right. apply CIH. exists (h x). split; [apply Hh|reflexivity]. }
  intros i q Hi. apply Gen. exists (step i). split; [apply Hstep, Hi|reflexivity].
Qed.

End Rules.

Section JsRules.
Variable M : Monitor.

Lemma obeys_ret {A} (Post : Settled A -> mstate M -> Prop) q (a : A) :
  Post (Fulfilled a) q -> obeys M Post q (ret a).
Proof. apply obeys_Ret. Qed.

Lemma obeys_throw {A} (Post : Settled A -> mstate M -> Prop) q t :
  Post (Rejected t) q -> obeys M Post q (throw t).
Proof. apply obeys_Ret. Qed.

Lemma obeys_bindJs {A B} (Mid : Settled A -> mstate M -> Prop)
    (Post : Settled B -> mstate M -> Prop) q (m : Js A) (k : A -> Js B) :
  obeys M Mid q m ->
  (forall a q', Mid (Fulfilled a) q' -> obeys M Post q' (k a)) ->
  (forall t q', Mid (Rejected t) q' -> Post (Rejected t) q') ->
  obeys M Post q (bindJs m k).
Proof.
  intros Hm Hk Ht. unfold bindJs. apply (obeys_bind M Mid Post q m _ Hm).
  intros [a|t] q' H; [apply Hk, H | apply obeys_Ret, Ht, H].
Qed.

Lemma obeys_try_catch {A} (Mid Post : Settled A -> mstate M -> Prop)
    q (body : Js A) (handler : Thrown -> Js A) :
  obeys M Mid q body ->
  (forall a q', Mid (Fulfilled a) q' -> Post (Fulfilled a) q') ->
  (forall t q', Mid (Rejected t) q' -> obeys M Post q' (handler t)) ->
  obeys M Post q (try_catch body handler).
Proof.
  intros Hb Ha Ht. unfold try_catch. apply (obeys_bind M Mid Post q body _ Hb).
  intros [a|t] q' H; [apply obeys_Ret, Ha, H | apply Ht, H].
Qed.

Lemma obeys_act q c :
  allowed M q c = true ->
  obeys M (fun r q' => r = Fulfilled tt /\ exists x, q' = next M q c x) q (act c).
Proof.
  intros Ha. unfold act.
  apply (obeys_bind M (fun x q' => q' = next M q c x) _ q (call c)).
  - apply (obeys_call M (fun c x q' => q' = next M q c x)); [exact Ha|reflexivity].
  - intros x q' ->. apply obeys_ret. split; [reflexivity|]. exists x. reflexivity.
Qed.

Lemma obeys_await_fetch q url init :
  allowed M q (fetch url init) = true ->
  obeys M (fun r q' => q' = next M q (fetch url init) r) q (await_fetch url init).
Proof.
  intros Ha. unfold await_fetch.
  apply (obeys_call M (fun c x q' => q' = next M q c x)); [exact Ha|reflexivity].
Qed.

Lemma obeys_await_json q resp :
  allowed M q (response_json resp) = true ->
  obeys M (fun r q' => q' = next M q (response_json resp) r) q (await_json resp).
Proof.
  intros Ha. unfold await_json.
  apply (obeys_call M (fun c x q' => q' = next M q c x)); [exact Ha|reflexivity].
Qed.

Lemma obeys_nonnull q body property :
  obeys M (fun r q' => q' = q /\ match r with
                                 | Fulfilled fields => body = JsonObject fields
                                 | Rejected _ => body = JsonNull
                                 end) q (nonnull body property).
Proof. destruct body; [apply obeys_throw|apply obeys_ret]; auto. Qed.

Lemma obeys_while (Inv : mstate M -> Prop) (Post : Settled unit -> mstate M -> Prop)
    (guard : unit -> bool) (body : Js LoopExit) :
  (forall q, Inv q -> guard tt = true ->
     obeys M (fun r q' => match r with
                          | Fulfilled Continue => Inv q'
                          | Fulfilled Break => Post (Fulfilled tt) q'
                          | Rejected t => Post (Rejected t) q'
                          end) q body) ->
  (forall q, Inv q -> guard tt = false -> Post (Fulfilled tt) q) ->
  forall q, Inv q -> obeys M Post q (while_ guard body).
Proof.
  intros Hbody Hexit q Hq. unfold while_.
  apply (obeys_iter M (fun _ => Inv) Post (while_turn guard body)); [|exact Hq].
  intros [] q1 Hq1. unfold while_turn.
  pose proof (Hbody q1 Hq1) as Hb. pose proof (Hexit q1 Hq1) as He.
  destruct (guard tt).
  - eapply obeys_bind; [apply Hb; reflexivity|].
    intros [[|]|t] q2 H; apply obeys_Ret; exact H.
  - apply obeys_Ret, He. reflexivity.
Qed.

End JsRules.

(** *** Monitors and runs *)

(** A tree that obeys a monitor is accepted by it on every run, at every
    length. *)
Lemma obeys_sound M {R} (Post : R -> mstate M -> Prop) env q0 fuel :
  forall (t : itree browserE R) w q,
    replay M q0 (past w) = Some q ->
    obeys M Post q t ->
    exists q', replay M q0 (past (fst (exec env fuel t w))) = Some q'.
Proof.
  induction fuel as [|f IH]; intros t w q Hq Ht; simpl.
  - exists q. destruct (observe t); exact Hq.
  - apply obeys_unfold in Ht. unfold obeysF in Ht.
    destruct (observe t) as [r|t'|X e k].
    + exists q. exact Hq.
    + eapply IH; eassumption.
    + destruct e as [c]. destruct Ht as [Ha Hk]. simpl.
      apply (IH _ _ (next M q c (answer env w c))); [|apply Hk].
      simpl. rewrite Hq, Ha. reflexivity.
Qed.

(** ** [handleProcess] obeys the three monitors *)

Lemma on_error_paced error q :
  obeys Pace (fun _ _ => True) q (on_error error).
Proof.
  unfold on_error.
  eapply obeys_bindJs; [apply obeys_act; reflexivity| |trivial]. intros _ q1 _.
  eapply obeys_bindJs; [apply obeys_act; reflexivity| |trivial]. intros _ q2 _.
  eapply obeys_bindJs; [apply obeys_act; reflexivity| |trivial]. intros _ q3 _.
  eapply obeys_weaken; [|apply obeys_act; reflexivity]. trivial.
Qed.

Lemma poll_turn_paced prediction q :
  obeys Pace (fun _ _ => True) q (poll_turn prediction).
Proof.
  unfold poll_turn, sleep, onProcessComplete.
  eapply obeys_bindJs; [apply obeys_act; reflexivity| |trivial].
  intros _ q1 (_ & x & ->).
  eapply obeys_bindJs; [apply obeys_await_fetch; apply orb_true_r| |trivial].
  intros statusResponse q2 _.
  eapply obeys_bindJs; [| |trivial].
  { instantiate (1 := fun _ _ => True).
    destruct (negb (ok statusResponse)); [apply obeys_throw|apply obeys_ret]; trivial. }
  intros _ q3 _.
  eapply obeys_bindJs; [apply obeys_await_json; reflexivity| |trivial].
  intros body q4 _.
  eapply obeys_bindJs; [apply obeys_nonnull| |trivial].
  intros updatedPrediction q4' _.
  eapply obeys_bindJs; [apply obeys_act; reflexivity| |trivial]. intros _ q5 _.
  eapply obeys_bindJs; [| |trivial].
  { instantiate (1 := fun _ _ => True).
    destruct (equals (j_status updatedPrediction) "failed");
      [apply obeys_throw|apply obeys_ret]; trivial. }
  intros _ q6 _.
  destruct (equals (j_status updatedPrediction) "succeeded"); [|apply obeys_ret; trivial].
  eapply obeys_bindJs; [apply obeys_act; reflexivity| |trivial]. intros _ q7 _.
  eapply obeys_bindJs; [apply obeys_act; reflexivity| |trivial]. intros _ q8 _.
  eapply obeys_bindJs; [apply obeys_act; reflexivity| |trivial]. intros _ q9 _.
  apply obeys_ret. trivial.
Qed.

(** Every status request of [handleProcess] comes after a one-second
    timer. *)
Lemma handleProcess_paced p q :
  obeys Pace (fun _ _ => True) q (handleProcess p).
Proof.
  unfold handleProcess.
  destruct (negb (present (user p))).
  { eapply obeys_weaken; [|apply obeys_act; reflexivity]. trivial. }
  destruct (negb (present (selectedFile p)) || negb (truthy (previewUrl p))).
  { apply obeys_ret. trivial. }
  apply (obeys_try_catch Pace (fun _ _ => True)); [|trivial|intros; apply on_error_paced].
  unfold submit_and_poll.
  eapply obeys_bindJs; [apply obeys_act; reflexivity| |trivial]. intros _ q1 _.
  eapply obeys_bindJs; [apply obeys_act; reflexivity| |trivial]. intros _ q2 _.
  eapply obeys_bindJs; [apply obeys_await_fetch; reflexivity| |trivial].
  intros response q3 _.
  eapply obeys_bindJs; [| |trivial].
  { instantiate (1 := fun _ _ => True).
    destruct (negb (ok response)); [|apply obeys_ret; trivial].
    eapply obeys_bindJs; [apply obeys_await_json; reflexivity| |trivial].
    intros body q4 _.
    eapply obeys_bindJs; [apply obeys_nonnull| |trivial].
    intros error q4' _. apply obeys_throw. trivial. }
  intros _ q4 _.
  eapply obeys_bindJs; [apply obeys_await_json; reflexivity| |trivial].
  intros body q5 _.
  eapply obeys_bindJs; [apply obeys_act; reflexivity| |trivial]. intros _ q6 _.
  eapply obeys_bindJs; [apply obeys_nonnull| |trivial].
  intros prediction q6' _.
  apply (obeys_while Pace (fun _ => True)); [| |trivial].
  - intros q7 _ _. eapply obeys_weaken; [|apply poll_turn_paced].
    intros [[|]|t] ? _; trivial.
  - trivial.
Qed.

Lemma on_error_halts error q :
  obeys Halt (fun _ _ => True) q (on_error error).
Proof.
  unfold on_error.
  eapply obeys_bindJs; [apply obeys_act; reflexivity| |trivial]. intros _ q1 _.
  eapply obeys_bindJs; [apply obeys_act; reflexivity| |trivial]. intros _ q2 _.
  eapply obeys_bindJs; [apply obeys_act; reflexivity| |trivial]. intros _ q3 _.
  eapply obeys_weaken; [|apply obeys_act; reflexivity]. trivial.
Qed.

(** A turn entered before any terminal status was seen either goes round
    again, still without one, or leaves the loop. *)
Lemma poll_turn_halts prediction :
  obeys Halt (fun r q' => match r with
                          | Fulfilled Continue => q' = false
                          | _ => True
                          end) false (poll_turn prediction).
Proof.
  unfold poll_turn, sleep, onProcessComplete.
  eapply obeys_bindJs; [apply obeys_act; reflexivity| |trivial].
  intros _ q1 (_ & x1 & ->). simpl.
  eapply obeys_bindJs; [apply obeys_await_fetch; reflexivity| |trivial].
  intros statusResponse q2 ->. simpl.
  eapply obeys_bindJs; [| |].
  { instantiate (1 := fun r q' => match r with Fulfilled _ => q' = false | _ => True end).
    destruct (negb (ok statusResponse)); [apply obeys_throw|apply obeys_ret]; trivial. }
  2: { intros; exact I. }
  intros _ q3 ->.
  eapply obeys_bindJs; [apply obeys_await_json; reflexivity| |trivial].
  intros body q4 ->.
  eapply obeys_bindJs; [apply obeys_nonnull| |trivial].
  intros updatedPrediction q4' [-> ->]. simpl.
  eapply obeys_bindJs; [apply obeys_act; reflexivity| |trivial].
  intros _ q5 (_ & x5 & ->). simpl. rewrite orb_false_r.
  eapply obeys_bindJs; [| |].
  { instantiate (1 := fun r q' =>
      match r with
      | Fulfilled _ => q' = terminal (j_status updatedPrediction)
                       /\ equals (j_status updatedPrediction) "failed" = false
      | _ => True
      end).
    destruct (equals (j_status updatedPrediction) "failed") eqn:F;
      [apply obeys_throw|apply obeys_ret]; auto. }
  2: { intros; exact I. }
  intros _ q6 (-> & F).
  destruct (equals (j_status updatedPrediction) "succeeded") eqn:S.
  - eapply obeys_bindJs; [apply obeys_act; reflexivity| |trivial]. intros _ q7 _.
    eapply obeys_bindJs; [apply obeys_act; reflexivity| |trivial]. intros _ q8 _.
    eapply obeys_bindJs; [apply obeys_act; reflexivity| |trivial]. intros _ q9 _.
    apply obeys_ret. trivial.
  - apply obeys_ret. unfold terminal. rewrite S, F. reflexivity.
Qed.

(** [handleProcess] makes no status request once it has read a body whose
    status is terminal. *)
Lemma handleProcess_halts p :
  obeys Halt (fun _ _ => True) false (handleProcess p).
Proof.
  unfold handleProcess.
  destruct (negb (present (user p))).
  { eapply obeys_weaken; [|apply obeys_act; reflexivity]. trivial. }
  destruct (negb (present (selectedFile p)) || negb (truthy (previewUrl p))).
  { apply obeys_ret. trivial. }
  apply (obeys_try_catch Halt (fun _ _ => True)); [|trivial|intros; apply on_error_halts].
  unfold submit_and_poll.
  eapply obeys_bindJs; [apply obeys_act; reflexivity| |trivial].
  intros _ q1 (_ & x1 & ->). simpl.
  eapply obeys_bindJs; [apply obeys_act; reflexivity| |trivial].
  intros _ q2 (_ & x2 & ->). simpl.
  eapply obeys_bindJs; [apply obeys_await_fetch; reflexivity| |trivial].
  intros response q3 ->. simpl.
  eapply obeys_bindJs; [| |].
  { instantiate (1 := fun r q' => match r with Fulfilled _ => q' = false | _ => True end).
    destruct (negb (ok response)); [|apply obeys_ret; trivial].
    eapply obeys_bindJs; [apply obeys_await_json; reflexivity| |trivial].
    intros body q4 _.
    eapply obeys_bindJs; [apply obeys_nonnull| |trivial].
    intros error q4' _. apply obeys_throw. trivial. }
  2: { intros; exact I. }
  intros _ q4 ->.
  eapply obeys_bindJs; [apply obeys_await_json; reflexivity| |trivial].
  intros body q5 ->.
  eapply obeys_bindJs; [apply obeys_act; reflexivity| |trivial].
  intros _ q6 (_ & x6 & ->).
  eapply obeys_bindJs; [apply obeys_nonnull| |trivial].
  intros prediction q6' [-> ->]. simpl. rewrite orb_false_r.
  apply (obeys_while Halt (fun q => q = terminal (j_status prediction))); [| |reflexivity].
  - intros q7 -> G. rewrite poll_guard_terminal in G. apply negb_true_iff in G. rewrite G.
    eapply obeys_weaken; [|apply poll_turn_halts].
    intros [[|]|t] q8 H; trivial.
  - trivial.
Qed.

Lemma on_error_forward error q :
  q = At Uploading \/ q = At Processing ->
  obeys Forward (fun _ _ => True) q (on_error error).
Proof.
  intros Hq. unfold on_error.
  eapply obeys_bindJs; [apply obeys_act; destruct Hq as [->| ->]; reflexivity| |trivial].
  intros _ q1 (_ & x1 & ->). cbn [next Forward].
  eapply obeys_bindJs; [apply obeys_act; destruct Hq as [->| ->]; reflexivity| |trivial].
  intros _ q2 (_ & x2 & ->). cbn [next Forward].
  eapply obeys_bindJs; [apply obeys_act; reflexivity| |trivial].
  intros _ q3 (_ & x3 & ->). cbn [next Forward].
  eapply obeys_weaken; [|apply obeys_act; reflexivity]. trivial.
Qed.

Lemma poll_turn_forward prediction :
  obeys Forward (fun r q' => match r with
                             | Fulfilled Continue => q' = At Processing
                             | Fulfilled Break => True
                             | Rejected _ => q' = At Processing
                             end) (At Processing) (poll_turn prediction).
Proof.
  unfold poll_turn, sleep, onProcessComplete.
  eapply obeys_bindJs; [apply obeys_act; reflexivity| |].
  2: { intros t q' [H _]. discriminate H. }
  intros _ q1 (_ & x1 & ->). cbn [next Forward].
  eapply obeys_bindJs; [apply obeys_await_fetch; reflexivity| |].
  2: { intros t q' ->. reflexivity. }
  intros statusResponse q2 ->. cbn [next Forward].
  eapply obeys_bindJs; [| |].
  { instantiate (1 := fun _ q' => q' = At Processing).
    destruct (negb (ok statusResponse)); [apply obeys_throw|apply obeys_ret]; reflexivity. }
  2: { intros t q' ->. reflexivity. }
  intros _ q3 ->.
  eapply obeys_bindJs; [apply obeys_await_json; reflexivity| |].
  2: { intros t q' ->. reflexivity. }
  intros body q4 ->. cbn [next Forward].
  eapply obeys_bindJs; [apply obeys_nonnull| |].
  2: { intros t q' [-> _]. reflexivity. }
  intros updatedPrediction q4' [-> _].
  eapply obeys_bindJs; [apply obeys_act; reflexivity| |].
  2: { intros t q' [H _]. discriminate H. }
  intros _ q5 (_ & x5 & ->). cbn [next Forward].
  eapply obeys_bindJs; [| |].
  { instantiate (1 := fun _ q' => q' = At Processing).
    destruct (equals (j_status updatedPrediction) "failed");
      [apply obeys_throw|apply obeys_ret]; reflexivity. }
  2: { intros t q' ->. reflexivity. }
  intros _ q6 ->.
  destruct (equals (j_status updatedPrediction) "succeeded"); [|apply obeys_ret; reflexivity].
  eapply obeys_bindJs; [apply obeys_act; reflexivity| |].
  2: { intros t q' [H _]. discriminate H. }
  intros _ q7 (_ & x7 & ->). cbn [next Forward].
  eapply obeys_bindJs; [apply obeys_act; reflexivity| |].
  2: { intros t q' [H _]. discriminate H. }
  intros _ q8 (_ & x8 & ->). cbn [next Forward].
  eapply obeys_bindJs; [apply obeys_act; reflexivity| |].
  2: { intros t q' [H _]. discriminate H. }
  intros _ q9 (_ & x9 & ->). cbn [next Forward].
  apply obeys_ret. exact I.
Qed.

Lemma submit_and_poll_forward p :
  obeys Forward (fun r q' => match r with
                             | Fulfilled _ => True
                             | Rejected _ => q' = At Uploading \/ q' = At Processing
                             end) Fresh (submit_and_poll p).
Proof.
  unfold submit_and_poll.
  eapply obeys_bindJs; [apply obeys_act; reflexivity| |].
  2: { intros t q' [H _]. discriminate H. }
  intros _ q1 (_ & x1 & ->). cbn [next Forward].
  eapply obeys_bindJs; [apply obeys_act; reflexivity| |].
  2: { intros t q' [H _]. discriminate H. }
  intros _ q2 (_ & x2 & ->). cbn [next Forward].
  eapply obeys_bindJs; [apply obeys_await_fetch; reflexivity| |].
  2: { intros t q' ->. left. reflexivity. }
  intros response q3 ->. cbn [next Forward].
  eapply obeys_bindJs; [| |].
  { instantiate (1 := fun _ q' => q' = At Uploading).
    destruct (negb (ok response)); [|apply obeys_ret; reflexivity].
    eapply obeys_bindJs; [apply obeys_await_json; reflexivity| |].
    - intros body q4 ->. cbn [next Forward].
      eapply obeys_bindJs; [apply obeys_nonnull| |].
      + intros error q4' [-> _]. apply obeys_throw. reflexivity.
      + intros t q' [-> _]. reflexivity.
    - intros t q' ->. reflexivity. }
  2: { intros t q' ->. left. reflexivity. }
  intros _ q4 ->.
  eapply obeys_bindJs; [apply obeys_await_json; reflexivity| |].
  2: { intros t q' ->. left. reflexivity. }
  intros body q5 ->. cbn [next Forward].
  eapply obeys_bindJs; [apply obeys_act; reflexivity| |].
  2: { intros t q' [H _]. discriminate H. }
  intros _ q6 (_ & x6 & ->). cbn [next Forward].
  eapply obeys_bindJs; [apply obeys_nonnull| |].
  2: { intros t q' [-> _]. right. reflexivity. }
  intros prediction q6' [-> _].
  apply (obeys_while Forward (fun q => q = At Processing)); [| |reflexivity].
  - intros q7 -> _. eapply obeys_weaken; [|apply poll_turn_forward].
    intros [[|]|t] q8 H; auto.
  - trivial.
Qed.

(** Every invocation of [handleProcess] obeys it. *)
Lemma handleProcess_forward p :
  obeys Forward (fun _ _ => True) Fresh (handleProcess p).
Proof.
  unfold handleProcess.
  destruct (negb (present (user p))).
  { eapply obeys_weaken; [|apply obeys_act; reflexivity]. trivial. }
  destruct (negb (present (selectedFile p)) || negb (truthy (previewUrl p))).
  { apply obeys_ret. trivial. }
  eapply obeys_try_catch; [apply submit_and_poll_forward|trivial|].
  intros t q' Hq. apply on_error_forward, Hq.
Qed.

(** *** From accepted journals to the timeline *)

Lemma timed_perform env w c :
  timed (past w) (now w) -> timed (past (perform env w c)) (now (perform env w c)).
Proof.
  intros H. simpl. split; [|exact H].
  destruct c; simpl; lia.
Qed.

Lemma timed_run env {R} fuel (t : itree browserE R) s m t0 :
  let w := fst (exec env fuel t (boot s m t0)) in
  timed (past w) (now w).
Proof.
  apply (exec_invariant env (fun w => timed (past w) (now w))).
  - intros w c. apply timed_perform.
  - exact I.
Qed.

Lemma pace_step waited c x :
  allowed Pace waited c = true ->
  (is_poll c = true /\ waited = true /\ next Pace waited c x = false)
  \/ (is_poll c = false /\
      next Pace waited c x = waited || (1000 <=? least_duration c)).
Proof.
  destruct c as [| | | |url [init|]| |ms|]; simpl; intros H;
    try (right; split; [reflexivity|]; rewrite orb_false_r; reflexivity).
  - left. auto.
  - right. auto.
Qed.

Lemma pace_spaced journal :
  forall now waited,
    replay Pace false journal = Some waited ->
    timed journal now ->
    (forall e, In e journal -> is_poll (what e) = true ->
               at_ms e + (if waited then 1000 else 0) <= now)
    /\ spaced journal.
Proof.
  induction journal as [|e older IH]; intros now waited Hr Ht.
  - split; [intros e []|exact I].
  - cbn [replay] in Hr. cbn [timed] in Ht. destruct Ht as [Hnow Ht].
    destruct (replay Pace false older) as [w0|]; [|discriminate].
    destruct (IH (at_ms e) w0 eq_refl Ht) as [Hold Hsp].
    destruct (allowed Pace w0 (what e)) eqn:Ha; [|discriminate].
    assert (next Pace w0 (what e) (got e) = waited) as Ew by (injection Hr; trivial).
    clear Hr. subst waited.
    destruct (pace_step w0 (what e) (got e) Ha) as [(Hp & -> & ->)|(Hp & ->)].
    + split.
      * intros e' [<-|Hin] Hp'; [lia|].
        specialize (Hold e' Hin Hp'). cbn [least_duration] in *. lia.
      * cbn [spaced]. split; [|exact Hsp]. intros _ e' Hin Hp'. apply (Hold e' Hin Hp').
    + split.
      * intros e' [<-|Hin] Hp'; [rewrite Hp in Hp'; discriminate|].
        specialize (Hold e' Hin Hp').
        destruct w0; cbn [orb] in *; [lia|].
        destruct (N.leb_spec 1000 (least_duration (what e))); lia.
      * cbn [spaced]. split; [|exact Hsp]. intros Hp'. rewrite Hp in Hp'. discriminate.
Qed.

Lemma spaced_app a journal : spaced (a ++ journal) -> spaced journal.
Proof. induction a as [|e a IH]; simpl; [trivial|]. intros [_ H]. apply IH, H. Qed.

Lemma halt_halted journal :
  forall seen,
    replay Halt false journal = Some seen ->
    seen = seen_in journal /\ halted journal.
Proof.
  induction journal as [|e older IH]; intros seen Hr.
  - cbn [replay] in Hr. injection Hr as <-. split; [reflexivity|exact I].
  - cbn [replay] in Hr. destruct (replay Halt false older) as [s0|]; [|discriminate].
    destruct (IH s0 eq_refl) as [-> Hh].
    destruct (allowed Halt (seen_in older) (what e)) eqn:Ha; [|discriminate].
    assert (next Halt (seen_in older) (what e) (got e) = seen) as Es
      by (injection Hr; trivial).
    clear Hr. subst seen. split.
    + cbn [next Halt seen_in existsb]. apply orb_comm.
    + cbn [halted]. split; [|exact Hh]. intros Hp.
      cbn [allowed Halt] in Ha. rewrite Hp in Ha. apply negb_true_iff, Ha.
Qed.

Lemma halted_app a journal : halted (a ++ journal) -> halted journal.
Proof. induction a as [|e a IH]; simpl; [trivial|]. intros [_ H]. apply IH, H. Qed.

(** ** The page *)

Lemma Status_eqb_eq a b : Status_eqb a b = true -> a = b.
Proof. destruct a, b; simpl; intros H; try discriminate H; reflexivity. Qed.

Lemma advance_invariant o t pg :
  running pg = Some (o, t) -> page_invariant pg -> page_invariant (advance o t pg).
Proof.
  intros Hrun [Hw Hinv]. rewrite Hrun in Hinv.
  destruct (waiting pg) as [|t1 rest] eqn:Hwait; [|contradiction].
  destruct Hinv as (q & Hq & Hstage).
  pose proof (obeys_unfold _ _ _ _ Hq) as Ht.
  unfold advance, obeysF in *.
  destruct (observe t) as [r|t'|X e k].
  - split; [exact Hw|]. simpl. rewrite ?Hwait. exact I.
  - split; [exact Hw|]. simpl. rewrite ?Hwait. exists q. auto.
  - destruct e as [c]. destruct Ht as [Ha Hk].
    destruct c as [msg|label err|s'|m|url init|resp|ms|type detail]; simpl.
    + split; [exact Hw|]. simpl. rewrite ?Hwait. exists q. split; [apply (Hk tt)|exact Hstage].
    + split; [exact Hw|]. simpl. rewrite ?Hwait. exists q. split; [apply (Hk tt)|exact Hstage].
    + split; simpl.
      * constructor; [|exact Hw]. unfold moves_forward. simpl.
        destruct Hstage as [->|[-> ->]]; simpl in Ha.
        -- left. apply Nat.ltb_lt, Ha.
        -- right. split; [reflexivity|]. apply Status_eqb_eq, Ha.
      * rewrite ?Hwait. exists (At s'). split; [apply (Hk tt)|left; reflexivity].
    + split; [exact Hw|]. simpl. rewrite ?Hwait. exists q. split; [apply (Hk tt)|exact Hstage].
    + split; [exact Hw|]. simpl. rewrite ?Hwait. simpl.
      destruct Hstage as [->|[-> _]]; simpl in Ha; [|discriminate Ha]. auto.
    + split; [exact Hw|]. simpl. rewrite ?Hwait. simpl.
      destruct Hstage as [->|[-> _]]; simpl in Ha; [|discriminate Ha]. auto.
    + split; [exact Hw|]. simpl. rewrite ?Hwait. simpl.
      destruct Hstage as [->|[-> _]]; simpl in Ha; [|discriminate Ha]. auto.
    + split; [exact Hw|]. simpl. rewrite ?Hwait. exists q. split; [apply (Hk tt)|exact Hstage].
Qed.

Lemma resume_invariant a t pg :
  running pg = None -> waiting pg = [t] ->
  page_invariant pg -> page_invariant (resume 0 a t pg).
Proof.
  intros Hrun Hwait Hpg. pose proof Hpg as [Hw Hinv]. rewrite Hrun, Hwait in Hinv.
  destruct Hinv as [Hq Hprog].
  pose proof (obeys_unfold _ _ _ _ Hq) as Ht.
  unfold resume, obeysF in *.
  destruct (observe t) as [r|t'|X e k]; try exact Hpg.
  destruct e as [c]. destruct Ht as [Ha Hk].
  destruct c as [msg|label err|s'|m|url init|resp|ms|type detail]; simpl; try exact Hpg;
    destruct a as [r|j|]; try exact Hpg;
    (split; [exact Hw|]; simpl; rewrite ?Hwait; simpl;
     exists (At (shown pg)); split; [apply (Hk _)|left; reflexivity]).
Qed.

Lemma react_invariant pg st : page_invariant pg -> page_invariant (react pg st).
Proof.
  intros Hpg. unfold react.
  destruct st as [p|i a|]; destruct (running pg) as [[o t]|] eqn:Hrun; try exact Hpg.
  - destruct (disabled p (shown pg)) eqn:Hdis; [exact Hpg|].
    pose proof Hpg as [Hw Hinv]. rewrite Hrun in Hinv.
    destruct (waiting pg) as [|t1 [|t2 rest]] eqn:Hwait; try contradiction.
    + split; [exact Hw|]. simpl. rewrite ?Hwait.
      exists Fresh. split; [apply handleProcess_forward|right; auto].
    + destruct Hinv as [_ Hprog]. unfold disabled in Hdis.
      rewrite Hprog, orb_true_r in Hdis. discriminate Hdis.
  - pose proof Hpg as [Hw Hinv]. rewrite Hrun in Hinv.
    destruct (waiting pg) as [|t1 [|t2 rest]] eqn:Hwait; try contradiction.
    + destruct i; exact Hpg.
    + destruct i as [|i]; simpl; [|destruct i; exact Hpg].
      apply resume_invariant; assumption.
  - apply advance_invariant; assumption.
Qed.

Lemma play_invariant stimuli : page_invariant (play stimuli).
Proof.
  unfold play.
  assert (forall pg, page_invariant pg -> page_invariant (fold_left react stimuli pg)) as Gen.
  { induction stimuli as [|st rest IH]; intros pg Hpg; simpl; [exact Hpg|].
    apply IH, react_invariant, Hpg. }
  apply Gen. split; [constructor|exact I].
Qed.

(** * Part III.  The claims *)

(** C1. Let the creation request be answered with an [ok] response whose
    body parses and carries a status that is not terminal, and let the first
    three status requests be answered with successful responses whose
    statuses are "starting", "processing" and "succeeded".  Then an
    invocation that passes the guard clauses returns (22 steps are enough),
    the values given to [setStatus] are uploading, processing, complete, in
    that order, the status responses it has received are exactly these three,
    and exactly one event is dispatched: 'processComplete', whose
    [detail.outputUrl] is the output of the third response when it is a
    single URL and its first element when it is an array. *)
Theorem C1_three_polls_then_complete env p s m t0 r prediction b1 b2 b3 :
  ready p = true ->
  creation env = Fulfilled r -> ok r = true -> json r = Fulfilled (JsonObject prediction) ->
  terminal (j_status prediction) = false ->
  status_response (status_reply env 0) = Some b1 ->
  status_response (status_reply env 1) = Some b2 ->
  status_response (status_reply env 2) = Some b3 ->
  j_status b1 = Some "starting" ->
  j_status b2 = Some "processing" ->
  j_status b3 = Some "succeeded" ->
  forall n, exists w,
    exec env (22 + n) (handleProcess p) (boot s m t0) = (w, Some (Fulfilled tt))
    /\ transitions w = [Uploading; Processing; Complete]
    /\ status w = Complete
    /\ dispatched w
       = [("processComplete",
           match j_output b3 with
           | OneUrl u => Some u
           | Urls us => hd_error us
           | NoOutput => None
           end)]
    /\ map status_response (polled w) = [Some b1; Some b2; Some b3].
Proof.
  intros Hp Hc Hok Hj Hfl R1 R2 R3 S1 S2 S3 n.
  assert (exists w,
             exec env (22 + n) (handleProcess p) (boot s m t0) = (w, Some (Fulfilled tt))
             /\ transitions w = [Uploading; Processing; Complete]
             /\ status w = Complete
             /\ dispatched w = [("processComplete", first_or_self (j_output b3))]
             /\ polls w = 3%nat) as (w & E & T & St & D & P).
  { rewrite (handleProcess_ready p Hp), exec_as_exec_k, exec_k_try_catch.
    replace (22 + n)%nat with (5 + (5 * 2 + (7 + n)))%nat by lia.
    destruct (reach_loop env p s m t0 r prediction Hc Hok Hj) as (w0 & -> & Hcalls & _).
    assert (polls w0 = 0%nat) as P0 by (rewrite polls_calls, Hcalls; reflexivity).
    destruct (quiet_turns env prediction Hfl 2 w0) as (w2 & -> & P2 & T2 & O2 & D2 & _).
    { intros j Hj2. rewrite P0. simpl.
      destruct j as [|[|j]]; [| |lia].
      - eapply status_response_quiet; [exact R1|]. rewrite S1. reflexivity.
      - eapply status_response_quiet; [exact R2|]. rewrite S2. reflexivity. }
    rewrite P0 in P2. simpl in P2.
    destruct (succeeded_turn env prediction Hfl w2 b3) as (w3 & -> & P3' & T3 & D3 & _ & St3 & _).
    { rewrite P2. exact R3. }
    { rewrite S3. reflexivity. }
    exists w3. split; [reflexivity|].
    rewrite T3, T2, D3, D2, P3', P2. unfold transitions, dispatched.
    rewrite Hcalls. repeat split; trivial. }
  exists w. repeat split; trivial.
  pose proof (polled_scripted env (22 + n) (handleProcess p) s m t0) as Hs.
  rewrite E in Hs. simpl in Hs. rewrite Hs, P. simpl. rewrite R1, R2, R3. reflexivity.
Qed.

(** C1 at a concrete input: the run of the spec's example, with the output
    ["https://x/out.png"]. *)
Lemma C1_witness :
  ready signed_in = true
  /\ creation succeeding = Fulfilled (prediction_response "starting" NoOutput None)
  /\ map (fun k => status_response (status_reply succeeding k)) [0; 1; 2]%nat
     = [Some (prediction_body "starting" NoOutput None);
        Some (prediction_body "processing" NoOutput None);
        Some (prediction_body "succeeded" (OneUrl "https://x/out.png") None)]
  /\ exists w,
       exec succeeding 22 (handleProcess signed_in) (boot Idle "" 0)
       = (w, Some (Fulfilled tt))
       /\ transitions w = [Uploading; Processing; Complete]
       /\ status w = Complete
       /\ dispatched w = [("processComplete", Some "https://x/out.png")]
       /\ map status_response (polled w)
          = [Some (prediction_body "starting" NoOutput None);
             Some (prediction_body "processing" NoOutput None);
             Some (prediction_body "succeeded" (OneUrl "https://x/out.png") None)].
Proof.
  split; [reflexivity|]. split; [reflexivity|]. split; [reflexivity|].
  exact (C1_three_polls_then_complete succeeding signed_in Idle "" 0
           (prediction_response "starting" NoOutput None)
           (prediction_body "starting" NoOutput None)
           (prediction_body "starting" NoOutput None)
           (prediction_body "processing" NoOutput None)
           (prediction_body "succeeded" (OneUrl "https://x/out.png") None)
           eq_refl eq_refl eq_refl eq_refl eq_refl eq_refl eq_refl eq_refl
           eq_refl eq_refl eq_refl 0%nat).
Defined.

(** The same run when the output is an array: the event carries its first
    element. *)
Lemma first_of_two_outputs :
  let env := {| creation := job "starting" NoOutput None;
                status_reply := fun _ =>
                  job "succeeded" (Urls ["https://x/a.png"; "https://x/b.png"]) None;
                latency := fun _ => 0 |} in
  dispatched (fst (exec env 40 (handleProcess signed_in) (boot Idle "" 0)))
  = [("processComplete", Some "https://x/a.png")].
Proof. reflexivity. Qed.

(** C2. With no authenticated user, an invocation from the idle state makes
    no network call at all, whatever the fuel, leaves the status at
    [Idle] (it never calls [setStatus]), and returns as soon as it is given
    one step: its only call is the log-in toast. *)
Theorem C2_no_user_no_network env p m t0 fuel :
  user p = None ->
  let w := fst (exec env fuel (handleProcess p) (boot Idle m t0)) in
  network w = [] /\ transitions w = [] /\ status w = Idle /\
  forall n,
    exists w', exec env (S n) (handleProcess p) (boot Idle m t0) = (w', Some (Fulfilled tt))
      /\ calls w' = [toast_error "Please log in to continue"].
Proof.
  intros Hu. rewrite (handleProcess_no_user p Hu).
  assert (forall f w, w = fst (exec env f (act (toast_error "Please log in to continue"))
                               (boot Idle m t0)) ->
                      network w = [] /\ transitions w = [] /\ status w = Idle) as Any.
  { intros [|f] w ->; [|rewrite exec_as_exec_k; run]; repeat split. }
  destruct (Any fuel _ eq_refl) as (? & ? & ?). repeat (split; trivial).
  intros n. rewrite exec_as_exec_k. run. eexists. split; reflexivity.
Qed.

(** C2 at a concrete input. *)
Lemma C2_witness :
  user signed_out = None
  /\ network (fst (exec succeeding 40 (handleProcess signed_out) (boot Idle "" 0))) = []
  /\ status (fst (exec succeeding 40 (handleProcess signed_out) (boot Idle "" 0))) = Idle.
Proof.
  split; [reflexivity|].
  destruct (C2_no_user_no_network succeeding signed_out "" 0 40 eq_refl) as (N & _ & S & _).
  split; [exact N|exact S].
Defined.

(** C3 as stated counts missing authentication among the error kinds that
    end with the status "error" and a message recorded inline.  The code
    returns before the [try] block: the log-in toast is all there is, the
    status stays "idle" and the message stays empty. *)
Lemma C3_missing_authentication_is_not_an_error_state :
  let run := exec unreachable 10 (handleProcess signed_out) (boot Idle "" 0) in
  snd run = Some (Fulfilled tt)
  /\ calls (fst run) = [toast_error "Please log in to continue"]
  /\ status (fst run) = Idle
  /\ status (fst run) <> Error
  /\ statusMessage (fst run) = "".
Proof. vm_compute. repeat split. discriminate. Qed.

(** C3 (amended).  A failure inside the [try] block (the creation or a
    status request rejected or answered with a non-[ok] response, a body
    that cannot be parsed or is [null], or a status response with status
    "failed") always
    ends the same way: the invocation returns with the status "error", the
    message of the thrown error recorded as the status message, and the toast
    'Processing failed. Please try again.' as the only notification.
    Missing authentication is handled before the [try] block: the invocation
    returns after the single toast 'Please log in to continue', and the
    status and the message are unchanged. *)
Theorem C3_failures_end_in_error env p s m t0 :
  (ready p = true ->
   forall t, fails env t ->
   exists c, forall n, exists w,
     exec env (c + n) (handleProcess p) (boot s m t0) = (w, Some (Fulfilled tt))
     /\ status w = Error
     /\ statusMessage w = message_of t
     /\ toasts w = ["Processing failed. Please try again."]) /\
  (user p = None ->
   forall n, exists w,
     exec env (1 + n) (handleProcess p) (boot s m t0) = (w, Some (Fulfilled tt))
     /\ status w = s
     /\ statusMessage w = m
     /\ toasts w = ["Please log in to continue"]).
Proof.
  split.
  - intros Hp t Ht.
    destruct (failure_run env p s m t0 t Hp Ht) as (c & Run).
    exists c. intros n. destruct (Run n) as (w & E & St & Msg & O & _).
    exists w. auto.
  - intros Hu n. rewrite (handleProcess_no_user p Hu), exec_as_exec_k.
    change (1 + n)%nat with (S n). run. eexists. repeat split.
Qed.

(** The job that fails at its second status response is a failure in the
    sense of [fails]. *)
Lemma failed_at_second_poll_fails : fails failed_at_second_poll (JsError "oom").
Proof.
  apply (fails_at_poll failed_at_second_poll
           (prediction_response "starting" NoOutput None)
           (prediction_body "starting" NoOutput None) 1 (JsError "oom"));
    try reflexivity.
  - intros j Hj. destruct j as [|j]; [reflexivity|lia].
  - exact (poll_job_failed (prediction_response "failed" NoOutput (Some "oom"))
             (prediction_body "failed" NoOutput (Some "oom")) eq_refl eq_refl eq_refl).
Defined.

(** C3 (amended) at concrete inputs: a job failing with "oom", and a
    signed-out user. *)
Lemma C3_witness :
  (ready signed_in = true /\ fails failed_at_second_poll (JsError "oom")
   /\ exists c, forall n, exists w,
        exec failed_at_second_poll (c + n) (handleProcess signed_in) (boot Idle "" 0)
        = (w, Some (Fulfilled tt))
        /\ status w = Error
        /\ statusMessage w = "oom"
        /\ toasts w = ["Processing failed. Please try again."])
  /\ (user signed_out = None
      /\ forall n, exists w,
           exec failed_at_second_poll (1 + n) (handleProcess signed_out) (boot Idle "" 0)
           = (w, Some (Fulfilled tt))
           /\ status w = Idle
           /\ statusMessage w = ""
           /\ toasts w = ["Please log in to continue"]).
Proof.
  split.
  - split; [reflexivity|]. split; [exact failed_at_second_poll_fails|].
    exact (proj1 (C3_failures_end_in_error failed_at_second_poll signed_in Idle "" 0)
             eq_refl (JsError "oom") failed_at_second_poll_fails).
  - split; [reflexivity|].
    exact (proj2 (C3_failures_end_in_error failed_at_second_poll signed_out Idle "" 0)
             eq_refl).
Defined.

(** C4 as stated has the invocation surface an error when the file or its
    preview URL is missing.  With a user signed in the invocation returns
    without a single call: no toast, no message, no status change. *)
Lemma C4_missing_file_surfaces_nothing :
  let run := exec unreachable 10 (handleProcess no_file_selected) (boot Idle "" 0) in
  snd run = Some (Fulfilled tt)
  /\ calls (fst run) = []
  /\ toasts (fst run) = []
  /\ status (fst run) = Idle
  /\ statusMessage (fst run) = "".
Proof. vm_compute. repeat split. Qed.

(** C4 (amended).  When the selected file is missing, or the preview URL is
    missing or empty, the invocation returns at once, without a network call
    and without touching the status or the message.  Nothing is surfaced when
    a user is signed in; when none is, the only call is the log-in toast of
    the first guard. *)
Theorem C4_missing_file_returns_silently env p s m t0 :
  present (selectedFile p) && truthy (previewUrl p) = false ->
  forall n, exists w,
    exec env (1 + n) (handleProcess p) (boot s m t0) = (w, Some (Fulfilled tt))
    /\ network w = []
    /\ status w = s
    /\ statusMessage w = m
    /\ calls w = if present (user p) then [] else [toast_error "Please log in to continue"].
Proof.
  intros Hf n. destruct (user p) as [u|] eqn:Hu.
  - rewrite (handleProcess_no_file p); [|rewrite Hu; reflexivity|exact Hf].
    rewrite exec_as_exec_k. run. eexists. repeat split.
  - rewrite (handleProcess_no_user p Hu), exec_as_exec_k.
    change (1 + n)%nat with (S n). run. eexists. repeat split.
Qed.

(** C4 (amended) at a concrete input. *)
Lemma C4_witness :
  present (selectedFile no_file_selected) && truthy (previewUrl no_file_selected) = false
  /\ forall n, exists w,
       exec succeeding (1 + n) (handleProcess no_file_selected) (boot Idle "" 0)
       = (w, Some (Fulfilled tt))
       /\ network w = []
       /\ status w = Idle
       /\ statusMessage w = ""
       /\ calls w = [].
Proof.
  split; [reflexivity|].
  exact (C4_missing_file_returns_silently succeeding no_file_selected Idle "" 0 eq_refl).
Defined.

(** C5, at the failing input.  A status response with "failed" is reported
    (status "error", message "oom"); the same report in the creation response
    is not: the loop is skipped, no status request is made, nothing is thrown,
    and the UI stays at "processing" with its first message. *)
Theorem C5_failed_job_in_creation_response_is_not_reported :
  let late := exec failed_at_second_poll 50 (handleProcess signed_in) (boot Idle "" 0) in
  let early := exec failed_at_creation 50 (handleProcess signed_in) (boot Idle "" 0) in
  (snd late = Some (Fulfilled tt)
   /\ status (fst late) = Error
   /\ statusMessage (fst late) = "oom")
  /\ (snd early = Some (Fulfilled tt)
      /\ status (fst early) = Processing
      /\ statusMessage (fst early) = "Starting image processing..."
      /\ toasts (fst early) = []
      /\ polls (fst early) = 0%nat).
Proof. vm_compute. repeat split. Qed.

(** C6 as stated makes the message the error field whenever the field is
    present, and a generic message in every other case.  An error field that
    is present but empty is replaced by the generic message; a body that
    cannot be parsed gives the parser's message, not a generic one; and a
    body that parses to [null] gives the message of the TypeError thrown by
    reading its [error], not a generic one either. *)
Lemma C6_message_is_not_always_the_error_field :
  let w1 := fst (exec refused_with_empty_error 10 (handleProcess signed_in) (boot Idle "" 0)) in
  let w2 := fst (exec refused_with_html 10 (handleProcess signed_in) (boot Idle "" 0)) in
  let w3 := fst (exec refused_with_null 10 (handleProcess signed_in) (boot Idle "" 0)) in
  (j_error (error_body (Some "")) = Some ""
   /\ statusMessage w1 = "Failed to process image"
   /\ statusMessage w1 <> "")
  /\ (statusMessage w2 = "Unexpected token < in JSON at position 0"
      /\ statusMessage w2 <> "Failed to process image")
  /\ (statusMessage w3 = "Cannot read properties of null (reading 'error')"
      /\ statusMessage w3 <> "Failed to process image").
Proof. vm_compute. repeat split; discriminate. Qed.

(** C6 (amended).  When the creation request is answered with a non-[ok]
    response, an invocation started in the idle state returns after eight
    calls with the status written twice, uploading then error, and no status
    request made.  The message shown is the body's error field when the body
    parses to a value other than [null] and the field is a non-empty string;
    'Failed to process image' when the body parses to a value other than
    [null] and the field is missing or empty; the message of the TypeError
    thrown by reading [error.error] when the body parses to [null]; and the
    message of the exception thrown by [response.json()] when the body does
    not parse. *)
Theorem C6_refused_creation env p m t0 resp :
  ready p = true ->
  creation env = Fulfilled resp -> ok resp = false ->
  forall n, exists w,
    exec env (8 + n) (handleProcess p) (boot Idle m t0) = (w, Some (Fulfilled tt))
    /\ transitions w = [Uploading; Error]
    /\ status w = Error
    /\ polls w = 0%nat
    /\ (forall body e, json resp = Fulfilled (JsonObject body) ->
        j_error body = Some e -> e <> "" ->
        statusMessage w = e)
    /\ (forall body, json resp = Fulfilled (JsonObject body) ->
        j_error body = None \/ j_error body = Some "" ->
        statusMessage w = "Failed to process image")
    /\ (json resp = Fulfilled JsonNull ->
        statusMessage w = message_of (null_read "error"))
    /\ (forall thrown, json resp = Rejected thrown ->
        statusMessage w = message_of thrown).
Proof.
  intros Hp Hc Hok n.
  rewrite (handleProcess_ready p Hp), exec_as_exec_k, exec_k_try_catch.
  unfold submit_and_poll, on_error.
  change (8 + n)%nat with (S (S (S (S (S (S (S (S n)))))))).
  run. cbn [answer]. rewrite Hc. run. rewrite Hok. cbn [negb]. run.
  destruct (json resp) as [[|body]|thrown] eqn:Hj; run;
    (eexists; split; [reflexivity|]; repeat split; cbn [statusMessage perform message_of]);
    try (intros; discriminate).
  - intros body' e [= <-] He Hne. rewrite He. simpl.
    destruct (String.eqb_spec e ""); [contradiction|reflexivity].
  - intros body' [= <-] [He|He]; rewrite He; reflexivity.
  - intros thrown' [= <-]. reflexivity.
Qed.

(** C6 (amended) at a concrete input: the empty error field. *)
Lemma C6_witness :
  ready signed_in = true
  /\ creation refused_with_empty_error
     = Fulfilled {| ok := false; json := Fulfilled (JsonObject (error_body (Some ""))) |}
  /\ exists w,
       exec refused_with_empty_error 8 (handleProcess signed_in) (boot Idle "" 0)
       = (w, Some (Fulfilled tt))
       /\ transitions w = [Uploading; Error]
       /\ status w = Error
       /\ statusMessage w = "Failed to process image".
Proof.
  split; [reflexivity|]. split; [reflexivity|].
  destruct (C6_refused_creation refused_with_empty_error signed_in "" 0
              {| ok := false; json := Fulfilled (JsonObject (error_body (Some ""))) |}
              eq_refl eq_refl eq_refl 0%nat)
    as (w & E & T & S & _ & _ & Generic & _).
  exists w. repeat split; try assumption.
  apply (Generic (error_body (Some "")) eq_refl). right. reflexivity.
Defined.

(** C7. Whatever the user and the service do, in any order (clicks on the
    button whenever it is enabled, answers to the awaited requests and
    timers), every write of the UI status moves it forward in
    idle, uploading, processing, complete | error, except the write of
    "uploading" by a fresh submission. *)
Theorem C7_status_moves_forward stimuli :
  Forall moves_forward (writes (play stimuli)).
Proof. apply play_invariant. Qed.

(** C8. In every run of [handleProcess], at every length: a status request
    is made at least 1000 ms after every earlier status request (each one is
    preceded by the one-second timer, which fires no earlier than its
    delay); and once a body with status "succeeded" or "failed" has been
    read, no status request follows. *)
Theorem C8_status_requests_are_paced_and_stop env p s m t0 fuel :
  let tl := timeline (fst (exec env fuel (handleProcess p) (boot s m t0))) in
  (forall e1 e2, before tl e1 e2 ->
     is_poll (what e1) = true -> is_poll (what e2) = true ->
     at_ms e1 + 1000 <= at_ms e2)
  /\ (forall e1 e2, before tl e1 e2 ->
       reports_terminal (what e1) (got e1) = true ->
       is_poll (what e2) = false).
Proof.
  set (w := fst (exec env fuel (handleProcess p) (boot s m t0))).
  intros tl. unfold tl, timeline. split.
  - intros e1 e2 B P1 P2. apply before_rev in B as (a & b & c & E).
    destruct (obeys_sound Pace (fun _ _ => True) env false fuel (handleProcess p)
                (boot s m t0) false eq_refl (handleProcess_paced p false)) as (q & Hq).
    fold w in Hq.
    destruct (pace_spaced (past w) (now w) q Hq (timed_run env fuel (handleProcess p) s m t0))
      as [_ Hsp].
    rewrite E in Hsp. apply spaced_app in Hsp. destruct Hsp as [Hsp _].
    apply (Hsp P2 e1); [|exact P1]. apply in_or_app. right. left. reflexivity.
  - intros e1 e2 B T1. apply before_rev in B as (a & b & c & E).
    destruct (obeys_sound Halt (fun _ _ => True) env false fuel (handleProcess p)
                (boot s m t0) false eq_refl (handleProcess_halts p)) as (q & Hq).
    fold w in Hq.
    destruct (halt_halted (past w) q Hq) as [_ Hh].
    rewrite E in Hh. apply halted_app in Hh. destruct Hh as [Hh _].
    destruct (is_poll (what e2)); [|reflexivity].
    specialize (Hh eq_refl). unfold seen_in in Hh.
    rewrite existsb_app in Hh. simpl in Hh. rewrite T1 in Hh.
    rewrite orb_true_r in Hh. discriminate Hh.
Qed.

(** C9. The poll loop has no bound.  Once it is entered (the creation
    response is [ok], parsed, and not terminal), if every status response is
    successful and none carries "succeeded" or "failed", the invocation has
    not returned after any number of steps, and it keeps fetching: after
    [5 + 5 * k] steps it has made exactly [k] status requests. *)
Theorem C9_poll_loop_never_ends env p s m t0 r prediction :
  ready p = true ->
  creation env = Fulfilled r -> ok r = true -> json r = Fulfilled (JsonObject prediction) ->
  terminal (j_status prediction) = false ->
  (forall k, quiet (status_reply env k) = true) ->
  (forall fuel, snd (exec env fuel (handleProcess p) (boot s m t0)) = None) /\
  (forall k, polls (fst (exec env (5 + 5 * k) (handleProcess p) (boot s m t0))) = k).
Proof.
  intros Hp Hc Hok Hj Hfl Hq. rewrite (handleProcess_ready p Hp). split.
  - intros fuel. rewrite exec_as_exec_k, exec_k_try_catch.
    destruct (Nat.lt_ge_cases fuel 5) as [Short|Long].
    + eapply short_of_loop; eassumption.
    + replace fuel with (5 + (fuel - 5))%nat by lia.
      destruct (reach_loop env p s m t0 r prediction Hc Hok Hj) as (w & -> & _).
      apply loop_never_returns; assumption.
  - intros k. rewrite exec_as_exec_k, exec_k_try_catch.
    destruct (reach_loop env p s m t0 r prediction Hc Hok Hj) as (w & -> & Hcalls & _).
    replace (5 * k)%nat with (5 * k + 0)%nat by lia.
    destruct (quiet_turns env prediction Hfl k w) as (w' & -> & Hpolls & _).
    { intros j _. apply Hq. }
    rewrite exec_k_while, (guard_holds prediction Hfl). unfold poll_turn, sleep. run.
    cbn [fst]. rewrite Hpolls, polls_calls, Hcalls. reflexivity.
Qed.

(** C9 at a concrete input: a job that stays in "processing". *)
Lemma C9_witness :
  ready signed_in = true
  /\ terminal (j_status (prediction_body "starting" NoOutput None)) = false
  /\ (forall k, quiet (status_reply stuck k) = true)
  /\ snd (exec stuck 1000 (handleProcess signed_in) (boot Idle "" 0)) = None
  /\ polls (fst (exec stuck (5 + 5 * 7) (handleProcess signed_in) (boot Idle "" 0))) = 7%nat.
Proof.
  split; [reflexivity|]. split; [reflexivity|]. split; [intros k; reflexivity|].
  destruct (C9_poll_loop_never_ends stuck signed_in Idle "" 0
              (prediction_response "starting" NoOutput None)
              (prediction_body "starting" NoOutput None)
              eq_refl eq_refl eq_refl eq_refl eq_refl (fun k => eq_refl)) as [Never Polls].
  split; [apply Never|apply Polls].
Defined.

(** C10. The guard of the poll loop reads the status of the creation
    response only.  When that status is already "succeeded" or "failed" the
    loop body never runs: the invocation returns after the five calls up to
    [setStatus('processing')], so there is no status fetch, no
    'processComplete' event, no error (nothing is logged, no toast, the
    status is not set to "error"), and the UI is left at "processing" with
    the message 'Starting image processing...'.  No prefix of the run
    contains a status fetch either. *)
Theorem C10_terminal_creation_skips_loop env p s m t0 r prediction :
  ready p = true ->
  creation env = Fulfilled r -> ok r = true -> json r = Fulfilled (JsonObject prediction) ->
  terminal (j_status prediction) = true ->
  (forall fuel, polls (fst (exec env fuel (handleProcess p) (boot s m t0))) = 0%nat) /\
  forall n, exists w,
    exec env (5 + n) (handleProcess p) (boot s m t0) = (w, Some (Fulfilled tt))
    /\ calls w = calls_skipping_the_loop p r
    /\ polls w = 0%nat
    /\ network w = [fetch "/api/replicate" (Some (creation_request p))]
    /\ dispatched w = []
    /\ toasts w = []
    /\ transitions w = [Uploading; Processing]
    /\ status w = Processing
    /\ statusMessage w = "Starting image processing...".
Proof.
  intros Hp Hc Hok Hj Ht. split.
  - apply (terminal_creation_never_polls env p s m t0 r prediction); assumption.
  - intros n.
    destruct (terminal_creation_run_views env p s m t0 r prediction n Hp Hc Hok Hj Ht)
      as (w & E & Hcalls & Hpolls & Hs & Hm).
    exists w. unfold network, dispatched, toasts, transitions.
    rewrite Hcalls. repeat split; trivial.
Qed.

(** C10 at a concrete input: the creation response says "failed". *)
Lemma C10_witness :
  ready signed_in = true
  /\ creation failed_at_creation = Fulfilled (prediction_response "failed" NoOutput (Some "oom"))
  /\ terminal (j_status (prediction_body "failed" NoOutput (Some "oom"))) = true
  /\ polls (fst (exec failed_at_creation 40 (handleProcess signed_in) (boot Idle "" 0))) = 0%nat
  /\ exists w,
       exec failed_at_creation 5 (handleProcess signed_in) (boot Idle "" 0)
       = (w, Some (Fulfilled tt))
       /\ status w = Processing
       /\ statusMessage w = "Starting image processing...".
Proof.
  split; [reflexivity|]. split; [reflexivity|]. split; [reflexivity|].
  destruct (C10_terminal_creation_skips_loop failed_at_creation signed_in Idle "" 0
              (prediction_response "failed" NoOutput (Some "oom"))
              (prediction_body "failed" NoOutput (Some "oom"))
              eq_refl eq_refl eq_refl eq_refl eq_refl) as [Never Run].
  split; [apply Never|].
  destruct (Run 0%nat) as (w & E & _ & _ & _ & _ & _ & _ & S & M).
  exists w. auto.
Defined.

(** * Part IV.  Further properties *)

(** ** Runs that reach "succeeded", and the message on the way *)

Section PollMessages.
Variable env : Env.
Variable prediction : Json.
Hypothesis in_flight : terminal (j_status prediction) = false.

Lemma quiet_turn_message w body :
  status_response (status_reply env (polls w)) = Some body ->
  terminal (j_status body) = false ->
  exists w',
    (forall S n (K : nat -> Settled unit -> World -> World * option S),
       exec_k env (5 + n) (while_ (poll_guard prediction) (poll_turn prediction)) w K
       = exec_k env n (while_ (poll_guard prediction) (poll_turn prediction)) w' K)
    /\ polls w' = Datatypes.S (polls w)
    /\ status w' = status w
    /\ statusMessage w' = "Processing: " ++ show (j_status body).
Proof.
  intros Hr Ht. apply status_response_inv in Hr as (resp & Hr & Hok & Hj).
  unfold terminal in Ht. apply orb_false_iff in Ht as [Hs Hf].
  eexists. split.
  - intros S n K.
    rewrite exec_k_while, (guard_holds prediction in_flight). unfold poll_turn at 1, sleep.
    change (5 + n)%nat with (Datatypes.S (Datatypes.S (Datatypes.S (Datatypes.S (Datatypes.S n))))).
    run. cbn [answer]. rewrite polls_perform. cbn [is_poll]. rewrite Nat.add_0_r, Hr.
    run. rewrite Hok. cbn [negb]. run. rewrite Hj. run. rewrite Hf. run. rewrite Hs. run.
    reflexivity.
  - rewrite !polls_perform. cbn [is_poll]. repeat split. lia.
Qed.

End PollMessages.

(** X1. However many status responses come before it, as long as they are
    successful and not terminal, the first status response that reports
    "succeeded" ends the invocation: it returns, it has made one status
    request more than there were responses before, the status has gone
    uploading, processing, complete, the message is 'Processing complete!',
    no toast was shown, and the one event dispatched is 'processComplete'
    with the output of that response (the URL itself, or the first element
    of an array). *)
Theorem succeeds_after_any_number_of_polls env p s m t0 r prediction k body :
  ready p = true ->
  creation env = Fulfilled r -> ok r = true -> json r = Fulfilled (JsonObject prediction) ->
  terminal (j_status prediction) = false ->
  (forall j, (j < k)%nat -> quiet (status_reply env j) = true) ->
  status_response (status_reply env k) = Some body ->
  equals (j_status body) "succeeded" = true ->
  forall n, exists w,
    exec env (12 + 5 * k + n) (handleProcess p) (boot s m t0) = (w, Some (Fulfilled tt))
    /\ polls w = S k
    /\ transitions w = [Uploading; Processing; Complete]
    /\ status w = Complete
    /\ statusMessage w = "Processing complete!"
    /\ dispatched w = [("processComplete", first_or_self (j_output body))]
    /\ toasts w = [].
Proof.
  intros Hp Hc Hok Hj Hfl Hq Hr Hs n.
  rewrite (handleProcess_ready p Hp), exec_as_exec_k, exec_k_try_catch.
  replace (12 + 5 * k + n)%nat with (5 + (5 * k + (7 + n)))%nat by lia.
  destruct (reach_loop env p s m t0 r prediction Hc Hok Hj) as (w0 & -> & Hcalls & _).
  assert (polls w0 = 0%nat) as P0 by (rewrite polls_calls, Hcalls; reflexivity).
  destruct (quiet_turns env prediction Hfl k w0) as (w1 & -> & P1 & T1 & O1 & D1 & _).
  { intros j Hjk. rewrite P0. apply Hq, Hjk. }
  rewrite P0 in P1. simpl in P1.
  destruct (succeeded_turn env prediction Hfl w1 body) as (w2 & -> & P2 & T2 & D2 & O2 & St & Msg).
  { rewrite P1. exact Hr. }
  { exact Hs. }
  exists w2. split; [reflexivity|].
  rewrite P2, P1, T2, T1, D2, D1, O2, O1. unfold transitions, dispatched, toasts.
  rewrite Hcalls. repeat split; trivial.
Qed.

(** X1 at a concrete input: the first status response reports "succeeded"
    with two outputs. *)
Lemma succeeds_after_any_number_of_polls_witness :
  ready signed_in = true
  /\ status_response (status_reply succeeds_at_once 0)
     = Some (prediction_body "succeeded" (Urls ["https://x/a.png"; "https://x/b.png"]) None)
  /\ exists w,
       exec succeeds_at_once 12 (handleProcess signed_in) (boot Idle "" 0)
       = (w, Some (Fulfilled tt))
       /\ polls w = 1%nat
       /\ status w = Complete
       /\ dispatched w = [("processComplete", Some "https://x/a.png")].
Proof.
  split; [reflexivity|]. split; [reflexivity|].
  destruct (succeeds_after_any_number_of_polls succeeds_at_once signed_in Idle "" 0
              (prediction_response "starting" NoOutput None)
              (prediction_body "starting" NoOutput None) 0
              (prediction_body "succeeded" (Urls ["https://x/a.png"; "https://x/b.png"]) None)
              eq_refl eq_refl eq_refl eq_refl eq_refl
              (fun j H => match Nat.nlt_0_r j H with end)
              eq_refl eq_refl 0%nat)
    as (w & E & P & _ & S & _ & D & _).
  exists w. auto.
Defined.

(** X2. While the job is in flight the message follows the remote status:
    right after a successful status response that is not terminal has been
    taken in, the UI status is still "processing" and the message is
    'Processing: ' followed by the status that response carries
    ("undefined" when it carries none). *)
Theorem message_follows_the_remote_status env p s m t0 r prediction k body :
  ready p = true ->
  creation env = Fulfilled r -> ok r = true -> json r = Fulfilled (JsonObject prediction) ->
  terminal (j_status prediction) = false ->
  (forall j, (j < k)%nat -> quiet (status_reply env j) = true) ->
  status_response (status_reply env k) = Some body ->
  terminal (j_status body) = false ->
  let w := fst (exec env (10 + 5 * k) (handleProcess p) (boot s m t0)) in
  polls w = S k
  /\ status w = Processing
  /\ statusMessage w = "Processing: " ++ show (j_status body).
Proof.
  intros Hp Hc Hok Hj Hfl Hq Hr Ht.
  rewrite (handleProcess_ready p Hp), exec_as_exec_k, exec_k_try_catch.
  replace (10 + 5 * k)%nat with (5 + (5 * k + (5 + 0)))%nat by lia.
  destruct (reach_loop env p s m t0 r prediction Hc Hok Hj) as (w0 & -> & Hcalls & St0 & _).
  assert (polls w0 = 0%nat) as P0 by (rewrite polls_calls, Hcalls; reflexivity).
  destruct (quiet_turns env prediction Hfl k w0) as (w1 & -> & P1 & _ & _ & _ & St1).
  { intros j Hjk. rewrite P0. apply Hq, Hjk. }
  rewrite P0 in P1. simpl in P1.
  destruct (quiet_turn_message env prediction Hfl w1 body) as (w2 & -> & P2 & St2 & Msg).
  { rewrite P1. exact Hr. }
  { exact Ht. }
  rewrite exec_k_while, (guard_holds prediction Hfl). unfold poll_turn, sleep. run.
  cbn [fst]. rewrite P2, P1, St2, St1, St0, Msg. repeat split.
Qed.

(** X2 at a concrete input: a job that stays in "processing". *)
Lemma message_follows_the_remote_status_witness :
  ready signed_in = true
  /\ status_response (status_reply stuck 1) = Some (prediction_body "processing" NoOutput None)
  /\ let w := fst (exec stuck 15 (handleProcess signed_in) (boot Idle "" 0)) in
     polls w = 2%nat
     /\ status w = Processing
     /\ statusMessage w = "Processing: processing".
Proof.
  split; [reflexivity|]. split; [reflexivity|].
  exact (message_follows_the_remote_status stuck signed_in Idle "" 0
           (prediction_response "starting" NoOutput None)
           (prediction_body "starting" NoOutput None) 1
           (prediction_body "processing" NoOutput None)
           eq_refl eq_refl eq_refl eq_refl eq_refl (fun j _ => eq_refl) eq_refl eq_refl).
Defined.

(** ** The requests of a run *)

Lemma scripted_run env {R} fuel (t : itree browserE R) s m t0 :
  Forall (scripted env) (past (fst (exec env fuel t (boot s m t0)))).
Proof.
  apply (exec_invariant env (fun w => Forall (scripted env) (past w))).
  - intros w c H. rewrite perform_past. constructor; [|exact H].
    unfold scripted. simpl. destruct c as [| | | |url [init|]| | |]; simpl; trivial.
  - constructor.
Qed.

Lemma on_error_requests p error q :
  obeys (Requests p) (fun _ q' => q' = q) q (on_error error).
Proof.
  unfold on_error.
  eapply obeys_bindJs; [apply obeys_act; reflexivity| |].
  2: { intros t q' [H _]. discriminate H. }
  intros _ q1 (_ & x1 & ->). cbn [next Requests].
  eapply obeys_bindJs; [apply obeys_act; reflexivity| |].
  2: { intros t q' [H _]. discriminate H. }
  intros _ q2 (_ & x2 & ->). cbn [next Requests].
  eapply obeys_bindJs; [apply obeys_act; reflexivity| |].
  2: { intros t q' [H _]. discriminate H. }
  intros _ q3 (_ & x3 & ->). cbn [next Requests].
  eapply obeys_weaken; [|apply obeys_act; reflexivity].
  intros r q' (_ & x4 & ->). reflexivity.
Qed.

Lemma poll_turn_requests p prediction :
  obeys (Requests p) (fun _ q' => q' = Created (Fulfilled (JsonObject prediction)))
    (Created (Fulfilled (JsonObject prediction))) (poll_turn prediction).
Proof.
  unfold poll_turn, sleep, onProcessComplete.
  eapply obeys_bindJs; [apply obeys_act; reflexivity| |].
  2: { intros t q' [H _]. discriminate H. }
  intros _ q1 (_ & x1 & ->). cbn [next Requests].
  eapply obeys_bindJs; [apply obeys_await_fetch; apply String.eqb_refl| |].
  2: { intros t q' ->. reflexivity. }
  intros statusResponse q2 ->. cbn [next Requests].
  eapply obeys_bindJs; [| |].
  { instantiate (1 := fun _ q' => q' = Created (Fulfilled (JsonObject prediction))).
    destruct (negb (ok statusResponse)); [apply obeys_throw|apply obeys_ret]; reflexivity. }
  2: { intros t q' ->. reflexivity. }
  intros _ q3 ->.
  eapply obeys_bindJs; [apply obeys_await_json; reflexivity| |].
  2: { intros t q' ->. reflexivity. }
  intros body q4 ->. cbn [next Requests].
  eapply obeys_bindJs; [apply obeys_nonnull| |].
  2: { intros t q' [-> _]. reflexivity. }
  intros updatedPrediction q4' [-> _].
  eapply obeys_bindJs; [apply obeys_act; reflexivity| |].
  2: { intros t q' [H _]. discriminate H. }
  intros _ q5 (_ & x5 & ->). cbn [next Requests].
  eapply obeys_bindJs; [| |].
  { instantiate (1 := fun _ q' => q' = Created (Fulfilled (JsonObject prediction))).
    destruct (equals (j_status updatedPrediction) "failed");
      [apply obeys_throw|apply obeys_ret]; reflexivity. }
  2: { intros t q' ->. reflexivity. }
  intros _ q6 ->.
  destruct (equals (j_status updatedPrediction) "succeeded"); [|apply obeys_ret; reflexivity].
  eapply obeys_bindJs; [apply obeys_act; reflexivity| |].
  2: { intros t q' [H _]. discriminate H. }
  intros _ q7 (_ & x7 & ->). cbn [next Requests].
  eapply obeys_bindJs; [apply obeys_act; reflexivity| |].
  2: { intros t q' [H _]. discriminate H. }
  intros _ q8 (_ & x8 & ->). cbn [next Requests].
  eapply obeys_bindJs; [apply obeys_act; reflexivity| |].
  2: { intros t q' [H _]. discriminate H. }
  intros _ q9 (_ & x9 & ->). cbn [next Requests].
  apply obeys_ret. reflexivity.
Qed.

Lemma handleProcess_requests p :
  obeys (Requests p) (fun _ _ => True) Unsent (handleProcess p).
Proof.
  unfold handleProcess.
  destruct (negb (present (user p))).
  { eapply obeys_weaken; [|apply obeys_act; reflexivity]. trivial. }
  destruct (negb (present (selectedFile p)) || negb (truthy (previewUrl p))).
  { apply obeys_ret. trivial. }
  apply (obeys_try_catch (Requests p) (fun _ _ => True)); [|trivial|].
  2: { intros t q' _. eapply obeys_weaken; [|apply on_error_requests]. trivial. }
  unfold submit_and_poll.
  eapply obeys_bindJs; [apply obeys_act; reflexivity| |trivial].
  intros _ q1 (_ & x1 & ->). cbn [next Requests].
  eapply obeys_bindJs; [apply obeys_act; reflexivity| |trivial].
  intros _ q2 (_ & x2 & ->). cbn [next Requests].
  eapply obeys_bindJs; [apply obeys_await_fetch| |trivial].
  { cbn [allowed Requests]. rewrite String.eqb_refl.
    destruct (RequestBody_eq_dec (creation_request p) (creation_request p));
      [reflexivity|contradiction]. }
  intros response q3 ->. cbn [next Requests].
  assert (allowed (Requests p) (Sent (Fulfilled response)) (response_json response) = true) as Hread.
  { cbn [allowed Requests].
    destruct (Response_eq_dec response response); [reflexivity|contradiction]. }
  eapply obeys_bindJs; [| |].
  { instantiate (1 := fun r q' => match r with
                                  | Fulfilled _ => q' = Sent (Fulfilled response) /\ ok response = true
                                  | Rejected _ => True
                                  end).
    destruct (ok response) eqn:Hok; cbn [negb]; [apply obeys_ret; auto|].
    eapply obeys_bindJs; [apply obeys_await_json; exact Hread| |trivial].
    intros body q4 _.
    eapply obeys_bindJs; [apply obeys_nonnull| |trivial].
    intros error q4' _. apply obeys_throw. trivial. }
  2: { trivial. }
  intros ? q4 [-> Hok].
  eapply obeys_bindJs; [apply obeys_await_json; exact Hread| |trivial].
  intros body q5 ->. cbn [next Requests]. rewrite Hok.
  eapply obeys_bindJs; [apply obeys_act; reflexivity| |trivial].
  intros _ q6 (_ & x6 & ->). cbn [next Requests].
  eapply obeys_bindJs; [apply obeys_nonnull| |trivial].
  intros prediction q6' [-> ->].
  apply (obeys_while (Requests p) (fun q => q = Created (Fulfilled (JsonObject prediction))));
    [| |reflexivity].
  - intros q7 -> _. eapply obeys_weaken; [|apply poll_turn_requests].
    intros [[|]|t] q8 H; auto.
  - trivial.
Qed.

Lemma wire_shape_replay env p journal :
  forall q,
    replay (Requests p) Unsent journal = Some q ->
    Forall (scripted env) journal ->
    wire_shape env p q journal.
Proof.
  induction journal as [|e older IH]; intros q Hr Hs.
  - cbn [replay] in Hr. injection Hr as <-. reflexivity.
  - cbn [replay] in Hr. inversion Hs as [|e' older' He Hold]; subst.
    destruct (replay (Requests p) Unsent older) as [q0|]; [|discriminate].
    specialize (IH q0 eq_refl Hold).
    destruct (allowed (Requests p) q0 (what e)) eqn:Ha; [|discriminate].
    injection Hr as <-.
    destruct e as [at_ c g]. unfold scripted in He. cbn [what got] in *.
    unfold wire_shape, requests in *. cbn [map filter].
    destruct c as [msg|label err|s'|m|url [body|]|resp|ms|type detail];
      cbn [is_fetch next Requests allowed] in *; try exact IH.
    + destruct q0; try discriminate Ha.
      apply andb_prop in Ha as [Hurl Hbody]. apply String.eqb_eq in Hurl as ->.
      destruct (RequestBody_eq_dec body (creation_request p)) as [->|]; [|discriminate].
      rewrite IH. auto.
    + destruct q0 as [|x| |[[|prediction]|t]]; try discriminate Ha.
      apply String.eqb_eq in Ha as ->.
      destruct IH as (r & Hc & Hok & Hj & n & Hn).
      exists r. repeat split; trivial. exists (S n). rewrite Hn. reflexivity.
    + destruct q0 as [|[r'|t]| |a]; try discriminate Ha; [|exact IH].
      destruct (Response_eq_dec resp r') as [->|]; [|discriminate].
      destruct IH as [Hx Hreq].
      destruct (ok r') eqn:Hok; [|exact Hreq].
      exists r'. repeat split; auto.
      destruct g as [[|prediction]|t]; [|exists 0%nat|]; exact Hreq.
Qed.

Lemma rev_repeat_one {A} (x y : A) n :
  rev (repeat x n ++ [y])%list = y :: repeat x n.
Proof.
  rewrite rev_app_distr. simpl. f_equal.
  induction n as [|n IH]; simpl; [reflexivity|].
  rewrite IH. symmetry. apply repeat_cons.
Qed.

Lemma network_requests w : network w = rev (requests (past w)).
Proof. unfold network, calls, requests. apply filter_rev. Qed.

Lemma polls_network w : polls w = length (filter is_poll (network w)).
Proof.
  rewrite polls_calls. unfold network. f_equal.
  induction (calls w) as [|c l IH]; simpl; [reflexivity|].
  destruct c as [| | | |url [init|]| | |]; simpl; rewrite IH; reflexivity.
Qed.

Lemma filter_polls_repeat url n :
  filter is_poll (repeat (fetch url None) n) = repeat (fetch url None) n.
Proof. induction n as [|n IH]; simpl; [|rewrite IH]; reflexivity. Qed.

Lemma network_shape env p s m t0 fuel :
  let w := fst (exec env fuel (handleProcess p) (boot s m t0)) in
  network w = []
  \/ (network w = [fetch "/api/replicate" (Some (creation_request p))] /\ polls w = 0%nat)
  \/ exists r prediction,
       creation env = Fulfilled r /\ ok r = true /\ json r = Fulfilled (JsonObject prediction) /\
       network w = fetch "/api/replicate" (Some (creation_request p))
                   :: repeat (fetch (status_url prediction) None) (polls w).
Proof.
  intros w.
  destruct (obeys_sound (Requests p) (fun _ _ => True) env Unsent fuel (handleProcess p)
              (boot s m t0) Unsent eq_refl (handleProcess_requests p)) as (q & Hq).
  fold w in Hq.
  pose proof (wire_shape_replay env p (past w) q Hq
                (scripted_run env fuel (handleProcess p) s m t0)) as H.
  rewrite polls_network, network_requests.
  destruct q as [|x| |[[|prediction]|t]]; unfold wire_shape in H.
  - left. rewrite H. reflexivity.
  - right. left. destruct H as [_ ->]. split; reflexivity.
  - right. left. rewrite H. split; reflexivity.
  - right. left. destruct H as (r & _ & _ & _ & ->). split; reflexivity.
  - right. right. destruct H as (r & Hc & Hok & Hj & n & ->).
    exists r, prediction. repeat split; trivial.
    rewrite rev_repeat_one. cbn [filter is_poll].
    rewrite filter_polls_repeat, repeat_length. reflexivity.
  - right. left. destruct H as (r & _ & _ & _ & ->). split; reflexivity.
Qed.

Lemma posted_body env p s m t0 fuel url body :
  In (fetch url (Some body))
     (network (fst (exec env fuel (handleProcess p) (boot s m t0)))) ->
  url = "/api/replicate" /\ body = creation_request p.
Proof.
  intros Hin.
  destruct (network_shape env p s m t0 fuel) as [H|[[H _]|(r & j & _ & _ & _ & H)]];
    rewrite H in Hin.
  - destruct Hin.
  - destruct Hin as [[= <- <-]|[]]. auto.
  - destruct Hin as [[= <- <-]|Hin]; [auto|].
    apply repeat_spec in Hin. discriminate Hin.
Qed.

(** X3. The requests of an invocation, whatever the service answers and
    however long the run: none; or the creation request alone, a POST of
    [/api/replicate] whose body holds [MODEL], the preview URL, the scale and
    the face-enhance flag; or that request followed by status requests only,
    all of them GETs of [/api/predictions/{id}] for the [id] of the body of
    the creation response, which was [ok].  The creation request is never
    sent twice, and the [id] of a status response is never used. *)
Theorem requests_of_every_run env p s m t0 fuel :
  let w := fst (exec env fuel (handleProcess p) (boot s m t0)) in
  network w = []
  \/ (network w = [fetch "/api/replicate" (Some (creation_request p))] /\ polls w = 0%nat)
  \/ exists r prediction,
       creation env = Fulfilled r /\ ok r = true /\ json r = Fulfilled (JsonObject prediction) /\
       network w = fetch "/api/replicate" (Some (creation_request p))
                   :: repeat (fetch (status_url prediction) None) (polls w).
Proof. apply network_shape. Qed.

(** ** How an invocation ends *)

Lemma obeys_returns M {R} (Post : R -> mstate M -> Prop) env q0 fuel :
  forall (t : itree browserE R) w q w' r,
    replay M q0 (past w) = Some q ->
    obeys M Post q t ->
    exec env fuel t w = (w', Some r) ->
    exists q', replay M q0 (past w') = Some q' /\ Post r q'.
Proof.
  induction fuel as [|f IH]; intros t w q w' r Hq Ht; simpl;
    apply obeys_unfold in Ht; unfold obeysF in Ht;
    destruct (observe t) as [r0|t'|X e k]; try discriminate.
  - intros [= <- <-]. exists q. auto.
  - intros [= <- <-]. exists q. auto.
  - apply (IH t' w q w' r Hq Ht).
  - destruct e as [c]. destruct Ht as [Ha Hk]. simpl.
    apply (IH _ _ (next M q c (answer env w c))); [|apply Hk].
    simpl. rewrite Hq, Ha. reflexivity.
Qed.

Lemma replay_Trace journal : replay Trace [] journal = Some (rev (map what journal)).
Proof.
  induction journal as [|e older IH]; [reflexivity|].
  cbn [replay]. rewrite IH. reflexivity.
Qed.

Lemma underway_app sts h c :
  underway sts h ->
  status_written c = None -> event_dispatched c = None -> toast_shown c = None ->
  underway sts (h ++ [c]).
Proof.
  intros (S & E & T) Hs He Ht. unfold underway. rewrite !keep_app. simpl.
  rewrite Hs, He, Ht, !app_nil_r. auto.
Qed.

Lemma on_error_trace error h :
  obeys Trace (fun r h' => r = Fulfilled tt /\ h' = (h ++ calls_of_catch error)%list)
    h (on_error error).
Proof.
  unfold on_error.
  eapply obeys_bindJs; [apply obeys_act; reflexivity| |].
  2: { intros t q' [H _]. discriminate H. }
  intros _ q1 (_ & x1 & ->). cbn [next Trace].
  eapply obeys_bindJs; [apply obeys_act; reflexivity| |].
  2: { intros t q' [H _]. discriminate H. }
  intros _ q2 (_ & x2 & ->). cbn [next Trace].
  eapply obeys_bindJs; [apply obeys_act; reflexivity| |].
  2: { intros t q' [H _]. discriminate H. }
  intros _ q3 (_ & x3 & ->). cbn [next Trace].
  eapply obeys_weaken; [|apply obeys_act; reflexivity].
  intros r q' (-> & x4 & ->). cbn [next Trace]. unfold calls_of_catch.
  rewrite <- !app_assoc. split; reflexivity.
Qed.

Lemma poll_turn_trace prediction h :
  underway [Uploading; Processing] h ->
  obeys Trace (fun r h' =>
                 match r with
                 | Fulfilled Break =>
                     exists before outputUrl,
                       h' = (before ++ calls_of_success outputUrl)%list
                       /\ underway [Uploading; Processing] before
                 | _ => underway [Uploading; Processing] h'
                 end) h (poll_turn prediction).
Proof.
  intros H0. unfold poll_turn, sleep, onProcessComplete.
  eapply obeys_bindJs; [apply obeys_act; reflexivity| |].
  2: { intros t q' [H _]. discriminate H. }
  intros _ q1 (_ & x1 & ->). cbn [next Trace].
  pose proof (underway_app _ _ (setTimeout 1000) H0 eq_refl eq_refl eq_refl) as H1.
  eapply obeys_bindJs; [apply obeys_await_fetch; reflexivity| |].
  2: { intros t q' ->. cbn [next Trace]. apply underway_app; trivial. }
  intros statusResponse q2 ->. cbn [next Trace].
  pose proof (underway_app _ _ (fetch ("/api/predictions/" ++ show (j_id prediction)) None)
                H1 eq_refl eq_refl eq_refl) as H2.
  eapply obeys_bindJs; [| |].
  { instantiate (1 := fun _ q' => underway [Uploading; Processing] q').
    destruct (negb (ok statusResponse)); [apply obeys_throw|apply obeys_ret]; exact H2. }
  2: { intros t q' H. exact H. }
  intros ? q3 H3. cbn beta in H3.
  eapply obeys_bindJs; [apply obeys_await_json; reflexivity| |].
  2: { intros t q' ->. cbn [next Trace]. apply underway_app; trivial. }
  intros body q4 ->. cbn [next Trace].
  pose proof (underway_app _ _ (response_json statusResponse) H3 eq_refl eq_refl eq_refl) as H4.
  eapply obeys_bindJs; [apply obeys_nonnull| |].
  2: { intros t q' [-> _]. exact H4. }
  intros updatedPrediction q4' [-> _].
  eapply obeys_bindJs; [apply obeys_act; reflexivity| |].
  2: { intros t q' [H _]. discriminate H. }
  intros _ q5 (_ & x5 & ->). cbn [next Trace].
  pose proof (underway_app _ _
                (setStatusMessage ("Processing: " ++ show (j_status updatedPrediction)))
                H4 eq_refl eq_refl eq_refl) as H5.
  eapply obeys_bindJs; [| |].
  { instantiate (1 := fun _ q' => underway [Uploading; Processing] q').
    destruct (equals (j_status updatedPrediction) "failed");
      [apply obeys_throw|apply obeys_ret]; exact H5. }
  2: { intros t q' H. exact H. }
  intros ? q6 H6. cbn beta in H6.
  destruct (equals (j_status updatedPrediction) "succeeded"); [|apply obeys_ret; exact H6].
  eapply obeys_bindJs; [apply obeys_act; reflexivity| |].
  2: { intros t q' [H _]. discriminate H. }
  intros _ q7 (_ & x7 & ->). cbn [next Trace].
  eapply obeys_bindJs; [apply obeys_act; reflexivity| |].
  2: { intros t q' [H _]. discriminate H. }
  intros _ q8 (_ & x8 & ->). cbn [next Trace].
  eapply obeys_bindJs; [apply obeys_act; reflexivity| |].
  2: { intros t q' [H _]. discriminate H. }
  intros _ q9 (_ & x9 & ->). cbn [next Trace].
  apply obeys_ret. exists q6, (first_or_self (j_output updatedPrediction)).
  split; [|exact H6]. unfold calls_of_success. rewrite <- !app_assoc. reflexivity.
Qed.

Lemma submit_and_poll_trace p :
  obeys Trace (fun r h =>
                 match r with
                 | Fulfilled _ =>
                     (exists resp, h = calls_skipping_the_loop p resp)
                     \/ (exists before outputUrl,
                           h = (before ++ calls_of_success outputUrl)%list
                           /\ underway [Uploading; Processing] before)
                 | Rejected _ =>
                     underway [Uploading] h \/ underway [Uploading; Processing] h
                 end) [] (submit_and_poll p).
Proof.
  unfold submit_and_poll.
  eapply obeys_bindJs; [apply obeys_act; reflexivity| |].
  2: { intros t q' [H _]. discriminate H. }
  intros _ q1 (_ & x1 & ->). cbn [next Trace app].
  eapply obeys_bindJs; [apply obeys_act; reflexivity| |].
  2: { intros t q' [H _]. discriminate H. }
  intros _ q2 (_ & x2 & ->). cbn [next Trace app].
  eapply obeys_bindJs; [apply obeys_await_fetch; reflexivity| |].
  2: { intros t q' ->. left. repeat split. }
  intros response q3 ->. cbn [next Trace app].
  eapply obeys_bindJs; [| |].
  { instantiate (1 := fun r q' =>
      match r with
      | Fulfilled _ =>
          q' = [setStatus Uploading; setStatusMessage "Starting image processing...";
                fetch "/api/replicate" (Some (creation_request p))]
      | Rejected _ => underway [Uploading] q'
      end).
    destruct (negb (ok response)); [|apply obeys_ret; reflexivity].
    eapply obeys_bindJs; [apply obeys_await_json; reflexivity| |].
    - intros body q4 ->. cbn [next Trace app].
      eapply obeys_bindJs; [apply obeys_nonnull| |].
      + intros error q4' [-> _]. apply obeys_throw. repeat split.
      + intros t q' [-> _]. repeat split.
    - intros t q' ->. repeat split. }
  2: { intros t q' H. left. exact H. }
  intros _ q4 ->.
  eapply obeys_bindJs; [apply obeys_await_json; reflexivity| |].
  2: { intros t q' ->. left. repeat split. }
  intros body q5 ->. cbn [next Trace app].
  eapply obeys_bindJs; [apply obeys_act; reflexivity| |].
  2: { intros t q' [H _]. discriminate H. }
  intros _ q6 (_ & x6 & ->). cbn [next Trace app].
  eapply obeys_bindJs; [apply obeys_nonnull| |].
  2: { intros t q' [-> _]. right. repeat split. }
  intros prediction q6' [-> _].
  apply (obeys_while Trace
           (fun h => underway [Uploading; Processing] h
                     /\ (poll_guard prediction tt = true
                         \/ h = calls_skipping_the_loop p response))).
  - intros h [Hu _] G. eapply obeys_weaken; [|apply poll_turn_trace; exact Hu].
    intros [[|]|t] h' H; auto.
  - intros h [_ [G| ->]] G'; [congruence|]. left. exists response. reflexivity.
  - split; [repeat split|]. right. reflexivity.
Qed.

Lemma handleProcess_trace p :
  obeys Trace (fun r h => r = Fulfilled tt /\ ending p h) [] (handleProcess p).
Proof.
  unfold handleProcess, ending.
  destruct (negb (present (user p))).
  { eapply obeys_weaken; [|apply obeys_act; reflexivity].
    intros r h (-> & x & ->). auto. }
  destruct (negb (present (selectedFile p)) || negb (truthy (previewUrl p))).
  { apply obeys_ret. auto. }
  eapply obeys_try_catch; [apply submit_and_poll_trace| |].
  - intros [] h [H|H]; auto 6.
  - intros t h H. eapply obeys_weaken; [|apply on_error_trace].
    intros r h' [-> ->]. split; [reflexivity|].
    do 4 right. exists h, t. split; [reflexivity|exact H].
Qed.

Lemma cells_follow_calls env s m t0 {R} fuel (t : itree browserE R) :
  let w := fst (exec env fuel t (boot s m t0)) in
  status w = last (transitions w) s
  /\ statusMessage w = last (keep message_written (calls w)) m.
Proof.
  apply (exec_invariant env (fun w => status w = last (transitions w) s
                                      /\ statusMessage w = last (keep message_written (calls w)) m)).
  - intros w c [Hs Hm]. rewrite transitions_perform, calls_perform, keep_app.
    destruct c; simpl; rewrite ?app_nil_r, ?last_last; auto.
  - split; reflexivity.
Qed.

(** X4. An invocation that returns always fulfils: [handleProcess] never
    rejects, every exception is caught.  And it has ended in one of four
    ways: stopped by a guard clause (no call, or the log-in toast alone);
    with the loop skipped (the five calls up to [setStatus('processing')],
    and the UI left at "processing"); complete (uploading, processing,
    complete; 'Processing complete!'; one 'processComplete' event; no toast);
    or in error (uploading, then possibly processing, then error; the
    message of the error that was logged; the failure toast and no other; no
    event). *)
Theorem every_invocation_that_returns env p s m t0 fuel w r :
  exec env fuel (handleProcess p) (boot s m t0) = (w, Some r) ->
  r = Fulfilled tt /\
  (   (calls w = [] \/ calls w = [toast_error "Please log in to continue"])
   \/ (exists resp,
         calls w = calls_skipping_the_loop p resp
         /\ status w = Processing
         /\ statusMessage w = "Starting image processing...")
   \/ (exists outputUrl,
         transitions w = [Uploading; Processing; Complete]
         /\ status w = Complete
         /\ statusMessage w = "Processing complete!"
         /\ dispatched w = [("processComplete", outputUrl)]
         /\ toasts w = [])
   \/ (exists error,
         (transitions w = [Uploading; Error]
          \/ transitions w = [Uploading; Processing; Error])
         /\ status w = Error
         /\ statusMessage w = message_of error
         /\ In (logger_error "Processing failed:" error) (calls w)
         /\ dispatched w = []
         /\ toasts w = ["Processing failed. Please try again."])).
Proof.
  intros E.
  destruct (obeys_returns Trace _ env [] fuel (handleProcess p) (boot s m t0) [] w r
              eq_refl (handleProcess_trace p) E) as (h & Hh & -> & End).
  split; [reflexivity|].
  rewrite replay_Trace in Hh. injection Hh as <-. fold (calls w) in End.
  destruct (cells_follow_calls env s m t0 fuel (handleProcess p)) as [Hs Hm].
  rewrite E in Hs, Hm. cbn [fst] in Hs, Hm.
  unfold transitions, dispatched, toasts in *.
  destruct End as [H|[H|[(resp & H)|[(before & url & H & S & D & T)
                                    |(before & error & H & U)]]]];
    rewrite H in *.
  - left. left. reflexivity.
  - left. right. reflexivity.
  - right. left. exists resp. auto.
  - right. right. left. exists url.
    rewrite !keep_app in *. rewrite S in Hs |- *. rewrite D, T.
    simpl in Hm. rewrite last_last in Hm. auto.
  - right. right. right. exists error.
    rewrite !keep_app in *.
    assert (exists sts, keep status_written before = sts /\
                        (sts = [Uploading] \/ sts = [Uploading; Processing]) /\
                        keep event_dispatched before = [] /\ keep toast_shown before = [])
      as (sts & S & Hsts & D & T).
    { destruct U as [(S & D & T)|(S & D & T)]; eexists; eauto. }
    rewrite S in Hs |- *. rewrite D, T. simpl in Hm.
    rewrite last_last in Hm.
    assert (status w = Error) as St by (destruct Hsts as [->| ->]; exact Hs).
    repeat split; trivial.
    + destruct Hsts as [->| ->]; auto.
    + apply in_or_app. right. left. reflexivity.
Qed.

(** X4 at a concrete input: the job that fails at its second status
    response. *)
Lemma every_invocation_that_returns_witness :
  let w := fst (exec failed_at_second_poll 50 (handleProcess signed_in) (boot Idle "" 0)) in
  exec failed_at_second_poll 50 (handleProcess signed_in) (boot Idle "" 0)
  = (w, Some (Fulfilled tt))
  /\ (polls w = 0%nat \/ status w = Complete \/ status w = Error).
Proof.
  intros w.
  assert (exec failed_at_second_poll 50 (handleProcess signed_in) (boot Idle "" 0)
          = (w, Some (Fulfilled tt))) as E.
  { vm_compute. reflexivity. }
  split; [exact E|].
  destruct (every_invocation_that_returns failed_at_second_poll signed_in Idle "" 0 50
              w (Fulfilled tt) E)
    as [_ [[H|H]|[(resp & H & _)|[(url & _ & S & _)|(error & _ & S & _)]]]].
  - exfalso. vm_compute in H. discriminate H.
  - exfalso. vm_compute in H. discriminate H.
  - exfalso. vm_compute in H. discriminate H.
  - right. left. exact S.
  - right. right. exact S.
Defined.

(** ** Time since the start of a run *)

Lemma clocked_run env {R} fuel (t : itree browserE R) s m t0 :
  let w := fst (exec env fuel t (boot s m t0)) in
  clocked t0 (past w) (now w).
Proof.
  apply (exec_invariant env (fun w => clocked t0 (past w) (now w))).
  - intros w c H. simpl. split; [|exact H]. destruct c; simpl; lia.
  - simpl. lia.
Qed.

Lemma pace_clocked t0 journal :
  forall now waited,
    replay Pace false journal = Some waited ->
    clocked t0 journal now ->
    t0 + 1000 * N.of_nat (length (filter (fun e => is_poll (what e)) journal))
       + (if waited then 1000 else 0) <= now.
Proof.
  induction journal as [|e older IH]; intros now waited Hr Ht.
  - cbn [replay] in Hr. injection Hr as <-. simpl in *. lia.
  - cbn [replay] in Hr. cbn [clocked] in Ht. destruct Ht as [Hnow Ht].
    destruct (replay Pace false older) as [w0|]; [|discriminate].
    specialize (IH (at_ms e) w0 eq_refl Ht).
    destruct (allowed Pace w0 (what e)) eqn:Ha; [|discriminate].
    assert (next Pace w0 (what e) (got e) = waited) as Ew by (injection Hr; trivial).
    clear Hr. subst waited. cbn [filter].
    destruct (pace_step w0 (what e) (got e) Ha) as [(Hp & -> & ->)|(Hp & ->)]; rewrite Hp.
    + cbn [length]. lia.
    + destruct w0; cbn [orb]; [lia|].
      destruct (N.leb_spec 1000 (least_duration (what e))); lia.
Qed.

Lemma replay_older M q0 a journal :
  forall q, replay M q0 (a ++ journal) = Some q -> exists q', replay M q0 journal = Some q'.
Proof.
  induction a as [|e a IH]; intros q H; [exists q; exact H|].
  cbn [app replay] in H.
  destruct (replay M q0 (a ++ journal)) as [q1|] eqn:E; [|discriminate].
  apply (IH q1 eq_refl).
Qed.

Lemma clocked_older t0 a journal :
  forall now, clocked t0 (a ++ journal) now -> exists now', clocked t0 journal now'.
Proof.
  induction a as [|e a IH]; intros now H; [exists now; exact H|].
  destruct H as [_ H]. apply (IH _ H).
Qed.

(** X5. The k-th status request of an invocation is made at least k
    seconds after the invocation started: each one waits for its own
    one-second timer, the first one included. *)
Theorem kth_status_request_comes_after_k_seconds env p s m t0 fuel earlier e later :
  timeline (fst (exec env fuel (handleProcess p) (boot s m t0)))
  = (earlier ++ e :: later)%list ->
  is_poll (what e) = true ->
  let k := S (length (filter (fun e' => is_poll (what e')) earlier)) in
  t0 + 1000 * N.of_nat k <= at_ms e.
Proof.
  set (w := fst (exec env fuel (handleProcess p) (boot s m t0))).
  intros Htl Hp k.
  assert (past w = (rev later ++ e :: rev earlier)%list) as E.
  { rewrite <- (rev_involutive (past w)). fold (timeline w). rewrite Htl.
    rewrite rev_app_distr. simpl. rewrite <- app_assoc. reflexivity. }
  destruct (obeys_sound Pace (fun _ _ => True) env false fuel (handleProcess p)
              (boot s m t0) false eq_refl (handleProcess_paced p false)) as (q & Hq).
  fold w in Hq. rewrite E in Hq. apply replay_older in Hq as [q' Hq].
  pose proof (clocked_run env fuel (handleProcess p) s m t0) as Hc.
  fold w in Hc. cbv zeta in Hc. rewrite E in Hc. apply clocked_older in Hc as [now' Hc].
  cbn [replay] in Hq. destruct Hc as [_ Hc].
  destruct (replay Pace false (rev earlier)) as [waited|] eqn:Hr; [|discriminate].
  destruct (allowed Pace waited (what e)) eqn:Ha; [|discriminate].
  cbn [allowed Pace] in Ha. rewrite Hp in Ha. subst waited.
  pose proof (pace_clocked t0 (rev earlier) (at_ms e) true Hr Hc) as H.
  rewrite filter_rev, length_rev in H. unfold k. lia.
Qed.

(** X5 at a concrete input: the first status request of a run with 20 ms of
    latency is made at 1060 ms. *)
Lemma kth_status_request_comes_after_k_seconds_witness :
  let e := {| at_ms := 1060; what := fetch "/api/predictions/p1" None;
              got := job "processing" NoOutput None |} in
  let tl := timeline (fst (exec stuck 7 (handleProcess signed_in) (boot Idle "" 0))) in
  tl = (firstn 6 tl ++ [e])%list /\ 0 + 1000 * 1 <= at_ms e.
Proof.
  split; [reflexivity|].
  exact (kth_status_request_comes_after_k_seconds stuck signed_in Idle "" 0 7
           (firstn 6 (timeline (fst (exec stuck 7 (handleProcess signed_in) (boot Idle "" 0)))))
           {| at_ms := 1060; what := fetch "/api/predictions/p1" None;
              got := job "processing" NoOutput None |}
           [] eq_refl eq_refl).
Defined.

(** ** The page *)

(** X6. Whatever the user and the service do, at most one invocation of
    [handleProcess] is alive on the page at any time, and while one is
    suspended at an [await] the button is disabled, whatever the props: a
    second poll loop cannot be started beside the first. *)
Theorem one_invocation_at_a_time stimuli :
  let pg := play stimuli in
  (length (waiting pg) + match running pg with Some _ => 1 | None => 0 end <= 1)%nat
  /\ (waiting pg <> [] -> forall p, disabled p (shown pg) = true).
Proof.
  intros pg. destruct (play_invariant stimuli) as [_ H]. fold pg in H.
  destruct (running pg) as [[o t]|], (waiting pg) as [|t1 [|t2 rest]]; try contradiction;
    simpl; split; try lia; try (intros N; elim N; reflexivity).
  intros _ p. destruct H as [_ Hprog]. unfold disabled. rewrite Hprog. apply orb_true_r.
Qed.

Lemma stuck_page pg :
  running pg = None -> waiting pg = [] -> in_progress (shown pg) = true ->
  forall stimuli, fold_left react stimuli pg = pg.
Proof.
  intros Hrun Hwait Hprog stimuli.
  induction stimuli as [|st rest IH]; [reflexivity|].
  cbn [fold_left].
  replace (react pg st) with pg; [exact IH|].
  unfold react. rewrite Hrun, Hwait.
  destruct st as [p|i a|]; trivial.
  - unfold disabled. rewrite Hprog, orb_true_r. reflexivity.
  - destruct i; reflexivity.
Qed.

Lemma observe_subst_cases {A B} (t : itree browserE A) (k : A -> itree browserE B) :
  observe (ITree.subst k t)
  = match observe t with
    | RetF r => observe (k r)
    | TauF t' => TauF (ITree.subst k t')
    | VisF e h => VisF e (fun x => ITree.subst k (h x))
    end.
Proof. apply observe_bind_cases. Qed.

Lemma observe_while_skipped (guard : unit -> bool) (body : Js LoopExit) :
  guard tt = false -> observe (while_ guard body) = RetF (Fulfilled tt).
Proof.
  intros G. unfold while_.
  change (observe (ITree.iter (while_turn guard body) tt))
    with (observe (ITree.bind (while_turn guard body tt)
                     (fun lr => match lr with
                                | inl j => Tau (ITree.iter (while_turn guard body) j)
                                | inr r => Ret r
                                end))).
  rewrite observe_bind_cases. unfold while_turn. rewrite G. reflexivity.
Qed.

Ltac stimulus :=
  match goal with
  | |- context [react (mkPage ?a ?b ?c ?d ?e) ?st] =>
      let pg := constr:(mkPage a b c d e) in
      let pg' := fresh "pg" in
      let E := fresh "E" in
      remember (react pg st) as pg' eqn:E;
      unfold react, advance, resume in E;
      repeat first
        [ progress cbn in E
        | rewrite observe_subst_cases in E
        | progress unfold bindJs, try_catch, act, await_fetch, await_json, call in E
        | match goal with H : _ = true |- _ => rewrite H in E end
        | match goal with H : _ = [] |- _ => rewrite H in E end
        | match goal with H : _ = Fulfilled _ |- _ => rewrite H in E end ];
      subst pg'
  end.

Lemma creation_answered_page pg p r prediction :
  running pg = None -> waiting pg = [] -> disabled p (shown pg) = false ->
  ready p = true ->
  ok r = true -> json r = Fulfilled (JsonObject prediction) -> terminal (j_status prediction) = true ->
  fold_left react (creation_answered p r) pg
  = {| shown := Processing;
       caption := "Starting image processing...";
       running := None;
       waiting := [];
       writes := [ {| w_from := Uploading; w_to := Processing; w_origin := Continuation |};
                   {| w_from := shown pg; w_to := Uploading; w_origin := Submission |} ]
                 ++ writes pg |}.
Proof.
  intros Hrun Hwait Hdis Hp Hok Hj Ht.
  unfold creation_answered, submission. cbn [app].
  cbn [fold_left].
  remember (react pg (Click p)) as pg0 eqn:E0.
  unfold react in E0. rewrite Hrun, Hdis, (handleProcess_ready p Hp) in E0. subst pg0.
  do 8 stimulus.
  rewrite observe_bind_cases. cbn.
  rewrite observe_while_skipped by (rewrite poll_guard_terminal, Ht; reflexivity).
  reflexivity.
Qed.

Lemma submission_page pg p :
  running pg = None -> waiting pg = [] -> disabled p (shown pg) = false ->
  ready p = true ->
  exists t,
    fold_left react (submission p) pg
    = {| shown := Uploading;
         caption := "Starting image processing...";
         running := None;
         waiting := [t];
         writes := {| w_from := shown pg; w_to := Uploading; w_origin := Submission |}
                   :: writes pg |}.
Proof.
  intros Hrun Hwait Hdis Hp.
  unfold submission. cbn [fold_left].
  remember (react pg (Click p)) as pg0 eqn:E0.
  unfold react in E0. rewrite Hrun, Hdis, (handleProcess_ready p Hp) in E0. subst pg0.
  do 3 stimulus. eexists. reflexivity.
Qed.

Lemma idle_click_page pg p :
  running pg = None -> waiting pg = [] -> disabled p (shown pg) = false ->
  ready p = false ->
  fold_left react [Click p; Step; Step] pg = pg.
Proof.
  intros Hrun Hwait Hdis Hp.
  cbn [fold_left].
  remember (react pg (Click p)) as pg0 eqn:E0.
  unfold react in E0. rewrite Hrun, Hdis in E0. subst pg0.
  unfold handleProcess. unfold ready in Hp.
  destruct (present (user p)); cbn [negb].
  - cbn [andb] in Hp.
    replace (negb (present (selectedFile p)) || negb (truthy (previewUrl p))) with true
      by (destruct (present (selectedFile p)), (truthy (previewUrl p)); try discriminate Hp; reflexivity).
    do 2 stimulus. destruct pg. cbn in *. subst. reflexivity.
  - do 2 stimulus. destruct pg. cbn in *. subst. reflexivity.
Qed.

(** X7. On a page at rest whose button is enabled, a submission whose
    creation response is [ok] and already carries the status "succeeded" or
    "failed" leaves the page at "processing" with the message 'Starting
    image processing...' and no invocation alive; and nothing that happens
    afterwards changes that: the button is disabled for good. *)
Theorem terminal_creation_response_leaves_the_button_disabled
    pg p r prediction more :
  running pg = None -> waiting pg = [] -> disabled p (shown pg) = false ->
  ready p = true ->
  ok r = true -> json r = Fulfilled (JsonObject prediction) -> terminal (j_status prediction) = true ->
  let pg' := fold_left react (creation_answered p r ++ more) pg in
  shown pg' = Processing
  /\ caption pg' = "Starting image processing..."
  /\ running pg' = None
  /\ waiting pg' = []
  /\ forall p', disabled p' (shown pg') = true.
Proof.
  intros Hrun Hwait Hdis Hp Hok Hj Ht pg'. unfold pg'.
  rewrite fold_left_app,
    (creation_answered_page pg p r prediction Hrun Hwait Hdis Hp Hok Hj Ht),
    stuck_page; try reflexivity.
  repeat split. intros p'. unfold disabled. apply orb_true_r.
Qed.

(** X7 at a concrete input: the creation response says "failed"; a click,
    a step and a timer afterwards change nothing. *)
Lemma terminal_creation_response_leaves_the_button_disabled_witness :
  let r := prediction_response "failed" NoOutput (Some "oom") in
  let pg := play (creation_answered signed_in r ++ [Click signed_in; Step; Settle 0 Fired]) in
  disabled signed_in (shown mounted) = false
  /\ shown pg = Processing
  /\ running pg = None
  /\ waiting pg = []
  /\ disabled signed_in (shown pg) = true.
Proof.
  split; [reflexivity|].
  destruct (terminal_creation_response_leaves_the_button_disabled mounted signed_in
              (prediction_response "failed" NoOutput (Some "oom"))
              (prediction_body "failed" NoOutput (Some "oom"))
              [Click signed_in; Step; Settle 0 Fired]
              eq_refl eq_refl eq_refl eq_refl eq_refl eq_refl eq_refl)
    as (S & _ & Rn & W & D).
  split; [exact S|]. split; [exact Rn|]. split; [exact W|]. apply D.
Defined.

(** X8. A click on the enabled button of a page at rest, whatever status
    it shows (idle, complete or error).  With a user signed in and a preview
    URL, it starts over: the status is written "uploading" by the
    submission, the message is 'Starting image processing...', and the
    invocation is suspended at the creation request.  Otherwise the page is
    unchanged. *)
Theorem click_on_the_enabled_button pg p :
  running pg = None -> waiting pg = [] -> disabled p (shown pg) = false ->
  (ready p = true ->
   let pg' := fold_left react (submission p) pg in
   shown pg' = Uploading
   /\ caption pg' = "Starting image processing..."
   /\ writes pg'
      = {| w_from := shown pg; w_to := Uploading; w_origin := Submission |} :: writes pg
   /\ running pg' = None
   /\ length (waiting pg') = 1%nat)
  /\ (ready p = false -> fold_left react [Click p; Step; Step] pg = pg).
Proof.
  intros Hrun Hwait Hdis. split.
  - intros Hp. destruct (submission_page pg p Hrun Hwait Hdis Hp) as (t & E).
    cbv zeta. rewrite E. repeat split.
  - apply idle_click_page; assumption.
Qed.

(** X8 at concrete inputs: a signed-in and a signed-out user on the page
    as mounted. *)
Lemma click_on_the_enabled_button_witness :
  (ready signed_in = true
   /\ shown (play (submission signed_in)) = Uploading
   /\ length (waiting (play (submission signed_in))) = 1%nat)
  /\ (ready signed_out = false
      /\ play [Click signed_out; Step; Step] = mounted).
Proof.
  split.
  - split; [reflexivity|].
    destruct (proj1 (click_on_the_enabled_button mounted signed_in eq_refl eq_refl eq_refl)
                eq_refl) as (S & _ & _ & _ & W).
    split; [exact S|exact W].
  - split; [reflexivity|].
    exact (proj2 (click_on_the_enabled_button mounted signed_out eq_refl eq_refl eq_refl)
             eq_refl).
Defined.

Lemma react_last_written pg st :
  shown pg = last_written pg -> shown (react pg st) = last_written (react pg st).
Proof.
  intros H. unfold react.
  destruct st as [p|i a|]; destruct (running pg) as [[o t]|]; try exact H.
  - destruct (disabled p (shown pg)); exact H.
  - destruct (nth_error (waiting pg) i) as [t|]; [|exact H].
    unfold resume. destruct (observe t) as [r|t'|X e k]; try exact H.
    destruct e as [c]. destruct (settle c a); exact H.
  - unfold advance. destruct (observe t) as [r|t'|X e k]; try exact H.
    destruct e as [c]. destruct (immediate c); [|exact H].
    destruct c; try exact H. reflexivity.
Qed.

Lemma play_last_written stimuli : shown (play stimuli) = last_written (play stimuli).
Proof.
  unfold play.
  assert (forall pg, shown pg = last_written pg ->
                     shown (fold_left react stimuli pg)
                     = last_written (fold_left react stimuli pg)) as Gen.
  { induction stimuli as [|st rest IH]; intros pg Hpg; simpl; [exact Hpg|].
    apply IH, react_last_written, Hpg. }
  apply Gen. reflexivity.
Qed.

Lemma moves_forward_not_idle wr : moves_forward wr -> w_to wr <> Idle.
Proof.
  intros [H|[_ H]] E; rewrite E in H; [simpl in H; lia|discriminate H].
Qed.

Lemma idle_iff_unwritten stimuli :
  shown (play stimuli) = Idle <-> writes (play stimuli) = [].
Proof.
  pose proof (play_last_written stimuli) as H.
  destruct (play_invariant stimuli) as [Hw _].
  unfold last_written in H. split; intros E.
  - destruct (writes (play stimuli)) as [|wr rest]; [reflexivity|].
    inversion Hw as [|? ? Hwr _]; subst.
    exfalso. apply (moves_forward_not_idle wr Hwr). congruence.
  - rewrite E in H. exact H.
Qed.

(** X9. The button reads 'Process Image' exactly as long as no invocation
    has written the status; from the first submission on, whatever happens,
    it reads 'Processing...' and has the grey 'cursor-not-allowed' class,
    also when the run is over and the button is enabled again. *)
Theorem process_image_only_before_the_first_submission
    stimuli p processedImageUrl serviceId :
  let pg := play stimuli in
  let scr := render p processedImageUrl serviceId (shown pg) (caption pg) in
  (button_text scr = "Process Image" <-> writes pg = [])
  /\ (writes pg <> [] ->
      button_text scr = "Processing..."
      /\ button_className scr
         = "w-full py-3 rounded-lg transition-colors bg-gray-600 cursor-not-allowed").
Proof.
  intros pg scr. pose proof (idle_iff_unwritten stimuli) as [H1 H2]. fold pg in H1, H2.
  unfold scr, render. cbn [button_text button_className].
  destruct (shown pg) eqn:S; cbn [Status_eqb]; rewrite ?andb_false_r.
  - split; [split; auto|]. intros N. elim N. auto.
  - split; [split; [discriminate|intros E; discriminate (H2 E)]|auto].
  - split; [split; [discriminate|intros E; discriminate (H2 E)]|auto].
  - split; [split; [discriminate|intros E; discriminate (H2 E)]|auto].
  - split; [split; [discriminate|intros E; discriminate (H2 E)]|auto].
Qed.

(** ** The screen and the request *)

Lemma stopped_no_call_but_toast env p s m t0 fuel :
  ready p = false ->
  network (fst (exec env fuel (handleProcess p) (boot s m t0))) = [].
Proof.
  intros Hp. destruct (user p) as [u|] eqn:Hu.
  - rewrite (handleProcess_no_file p).
    + destruct fuel; reflexivity.
    + rewrite Hu. reflexivity.
    + unfold ready in Hp. rewrite Hu in Hp. exact Hp.
  - rewrite (handleProcess_no_user p Hu).
    destruct fuel as [|fuel]; [reflexivity|].
    rewrite exec_as_exec_k. run. reflexivity.
Qed.

Lemma calls_prefix env {R} fuel n (t : itree browserE R) w :
  exists l, calls (fst (exec env (fuel + n) t w))
            = (calls (fst (exec env fuel t w)) ++ l)%list.
Proof.
  destruct (exec_prefix env fuel n t w) as [l E].
  exists (rev (map what l)). unfold calls. rewrite E, map_app, rev_app_distr. reflexivity.
Qed.

Lemma submitted_after_three_calls env p s m t0 :
  ready p = true ->
  calls (fst (exec env 3 (handleProcess p) (boot s m t0)))
  = [ setStatus Uploading;
      setStatusMessage "Starting image processing...";
      fetch "/api/replicate" (Some (creation_request p)) ].
Proof.
  intros Hp. rewrite (handleProcess_ready p Hp), exec_as_exec_k, exec_k_try_catch.
  unfold submit_and_poll, on_error. run. cbn [answer].
  destruct (creation env) as [resp|t]; run; [|reflexivity].
  destruct (ok resp); cbn [negb]; run; reflexivity.
Qed.

(** X10. What is on the screen is what is sent.  Given three steps or more,
    an invocation makes a request exactly when a user is signed in and the
    input preview is rendered; and a request with a body carries the image
    of that preview and, when the upscale controls are rendered, the scale
    and the face-enhance flag they show. *)
Theorem what_is_previewed_is_what_is_sent
    env p processedImageUrl serviceId st message s m t0 n :
  let scr := render p processedImageUrl serviceId st message in
  let w := fst (exec env (3 + n) (handleProcess p) (boot s m t0)) in
  (network w <> [] <-> present (user p) = true /\ input_preview scr <> None)
  /\ (forall url body, In (fetch url (Some body)) (network w) ->
        input_preview scr = Some (input_image body)
        /\ upscale_controls scr
           = if String.eqb serviceId "upscale"
             then Some (input_scale body, input_face_enhance body)
             else None).
Proof.
  intros scr w.
  assert (ready p = (present (user p)
                     && match input_preview scr with Some _ => true | None => false end)) as R.
  { unfold ready, scr, render. cbn [input_preview].
    destruct (present (user p)), (present (selectedFile p)), (previewUrl p) as [u|];
      try reflexivity. cbn. destruct (String.eqb u ""); reflexivity. }
  destruct (ready p) eqn:Hp.
  - symmetry in R. apply andb_prop in R as [Hu Hv].
    destruct (calls_prefix env 3 n (handleProcess p) (boot s m t0)) as [l E].
    fold w in E. rewrite (submitted_after_three_calls env p s m t0 Hp) in E.
    split.
    + split; [intros _|intros _ N].
      * split; [exact Hu|]. destruct (input_preview scr); [discriminate|discriminate Hv].
      * unfold network in N. rewrite E in N. discriminate N.
    + intros url body Hin. apply posted_body in Hin as [_ ->].
      unfold scr, render, creation_request in *.
      cbn [input_preview upscale_controls input_image input_scale input_face_enhance] in *.
      destruct (present (selectedFile p) && truthy (previewUrl p)); [|discriminate Hv].
      destruct (previewUrl p) as [u|]; [|discriminate Hv]. split; reflexivity.
  - split.
    + unfold w. rewrite (stopped_no_call_but_toast env p s m t0 (3 + n) Hp).
      split; [intros N; elim N; reflexivity|].
      intros [Hu Hv]. rewrite Hu in R. destruct (input_preview scr); [discriminate R|elim Hv; reflexivity].
    + unfold w. rewrite (stopped_no_call_but_toast env p s m t0 (3 + n) Hp). intros ? ? [].
Qed.
